(** * nock: request normalization, interceptor registry, net-connect policy
      and recorder

    A shallow embedding of [lib/common.js], [lib/intercept.js] and
    [lib/recorder.js].  JavaScript objects are records, module-level
    variables are fields of an explicit state, interceptor objects live in
    a store indexed by reference so that the mutations done through one
    reference are seen through the others, and [throw] is a constructor of
    the result type. *)

From Stdlib Require Import String Ascii List ZArith Bool Lia DecimalString
  Permutation.
Import ListNotations.

Local Open Scope string_scope.
Local Open Scope Z_scope.

(** ** The fragment of JavaScript the three files use *)

Module JS.

(** [s.split(c)[0]]: the text before the first [c], all of [s] when
    there is none. *)
Fixpoint before_first (c : ascii) (s : string) : string :=
  match s with
  | EmptyString => EmptyString
  | String a s' => if Ascii.eqb a c then EmptyString
                   else String a (before_first c s')
  end.

(** The text after the first [c], if [c] occurs. *)
Fixpoint after_first (c : ascii) (s : string) : option string :=
  match s with
  | EmptyString => None
  | String a s' => if Ascii.eqb a c then Some s' else after_first c s'
  end.

(** [s.split(c)] for a one-character separator.  The fuel is the length
    of the string, which bounds the number of separators. *)
Fixpoint split_fuel (n : nat) (c : ascii) (s : string) : list string :=
  match n with
  | O => [before_first c s]
  | S n' =>
      match after_first c s with
      | None => [before_first c s]
      | Some rest => before_first c s :: split_fuel n' c rest
      end
  end.

Definition split (c : ascii) (s : string) : list string :=
  split_fuel (String.length s) c s.

(** [s.indexOf(c)], with -1 when [c] does not occur. *)
Fixpoint indexOf (c : ascii) (s : string) : Z :=
  match s with
  | EmptyString => -1
  | String a s' =>
      if Ascii.eqb a c then 0
      else let i := indexOf c s' in if i <? 0 then -1 else i + 1
  end.

(** [xs.join('')] on an array of strings. *)
Definition join (xs : list string) : string :=
  fold_right String.append EmptyString xs.

(** A string is truthy unless it is empty. *)
Definition truthy_string (s : string) : bool :=
  match s with EmptyString => false | _ => true end.

(** An absent ([undefined] or [null]) property is falsy. *)
Definition truthy_opt (o : option string) : bool :=
  match o with Some s => truthy_string s | None => false end.

(** Number-to-string conversion, on the integers. *)
Definition string_of_Z (z : Z) : string :=
  NilZero.string_of_int (Z.to_int z).

(** What [+] appends for a string property that may be [undefined]. *)
Definition text (o : option string) : string :=
  match o with Some s => s | None => "undefined" end.

(** The double quote character, as a one-character string. *)
Definition dquote : string := String (ascii_of_nat 34) EmptyString.

(** What a [throw] carries: the [name] and [message] of the error. *)
Record Error : Type := mkError { name : string; message : string }.

Inductive result (A : Type) : Type :=
| Ok (a : A)
| Throw (e : Error).
Arguments Ok {A} a.
Arguments Throw {A} e.

(** A [TypeError] raised by the runtime itself (a property of [undefined],
    an argument of the wrong type). *)
Definition TypeError (msg : string) : Error := mkError "TypeError" msg.

End JS.

(** ** The request options object *)

(** A port is a number ([http.request({port: 8080})]) or a string (the
    [port] of a parsed URL). *)
Inductive port_value : Type :=
| PNum (n : Z)
| PStr (s : string).

Definition port_truthy (p : option port_value) : bool :=
  match p with
  | None => false
  | Some (PNum n) => negb (n =? 0)
  | Some (PStr s) => JS.truthy_string s
  end.

(** [port.toString()], also what [+] does to a port next to a string. *)
Definition port_toString (p : port_value) : string :=
  match p with
  | PNum n => JS.string_of_Z n
  | PStr s => s
  end.

(** The properties of [options] that the three files read or write.
    [None] is an absent property.  [_https_] is the flag the recorder
    sets; [method] and [path] are only carried along. *)
Record Options : Type := mkOptions {
  proto : option string;
  port : option port_value;
  hostname : option string;
  host : option string;
  _https_ : bool;
  method : option string;
  path : option string
}.

Definition set_proto (v : option string) (o : Options) : Options :=
  mkOptions v (port o) (hostname o) (host o) (_https_ o) (method o) (path o).
Definition set_port (v : option port_value) (o : Options) : Options :=
  mkOptions (proto o) v (hostname o) (host o) (_https_ o) (method o) (path o).
Definition set_hostname (v : option string) (o : Options) : Options :=
  mkOptions (proto o) (port o) v (host o) (_https_ o) (method o) (path o).
Definition set_host (v : option string) (o : Options) : Options :=
  mkOptions (proto o) (port o) (hostname o) v (_https_ o) (method o) (path o).

(** The empty options object. *)
Definition no_options : Options :=
  mkOptions None None None None false None None.

(** [a || b] on an optional string property. *)
Definition or_string (a : option string) (b : string) : string :=
  match a with
  | Some s => if JS.truthy_string s then s else b
  | None => b
  end.

(** [a || b] on an optional port. *)
Definition or_port (a : option port_value) (b : port_value) : port_value :=
  match a with
  | Some p => if port_truthy a then p else b
  | None => b
  end.

(** [a === s] for a string literal [s]. *)
Definition strict_eq (a : option string) (s : string) : bool :=
  match a with
  | Some x => String.eqb x s
  | None => false
  end.

(** What [+] appends for a port next to a string. *)
Definition port_text (p : option port_value) : string :=
  match p with
  | Some v => port_toString v
  | None => "undefined"
  end.

(** ** lib/common.js *)

Module Common.

(** Normalizes the request options so that they always have a [host]
    property.  The object is changed in place and returned; the model
    returns the changed object.  [options.host.split(':')[0]] is
    [before_first]. *)
Definition normalizeRequestOptions (options : Options) : Options :=
  let options :=
    set_proto (Some (or_string (proto options) "http")) options in
  let options :=
    set_port (Some (or_port (port options)
                      (if strict_eq (proto options) "http"
                       then PNum 80 else PNum 443))) options in
  let options :=
    match host options with
    | Some h =>
        if JS.truthy_string h then
          set_hostname
            (Some (or_string (hostname options) (JS.before_first ":" h)))
            options
        else options
    | None => options
    end in
  let options :=
    set_host (Some (or_string (hostname options) "localhost"
                    ++ ":" ++ port_text (port options))) options in
  options.

End Common.

(** ** lib/intercept.js *)

(** What [url.parse] returns, as far as the two files read it.  A component
    the URL does not have is [null]. *)
Module Url.
Record t : Type := mk {
  protocol : option string;
  host : option string;
  hostname : option string;
  port : option string;
  path : option string
}.

(** What [+] appends for a component next to a string. *)
Definition text (c : option string) : string :=
  match c with Some s => s | None => "null" end.

(** A parsed URL used as the options object of a request. *)
Definition as_options (u : t) : Options :=
  mkOptions None (option_map PStr (port u)) (hostname u) (host u) false
    None (path u).
End Url.

Module Intercept.

(** A reference to an interceptor object. *)
Definition ref : Type := nat.

(** The scope an interceptor belongs to, as [remove] sees it: the answer
    of [scope.shouldPersist()]. *)
Record Scope : Type := mkScope { shouldPersist : bool }.

(** The scope options, as [interceptorsFor] sees them. *)
Record ScopeOptions : Type := mkScopeOptions {
  scopeFiltering : option (string -> bool)
}.

(** An interceptor object, as [lib/scope.js] builds it and as this file
    reads and writes it.  [allowUnmocked] is
    [interceptor.options.allowUnmocked]; [matchIndependentOfBody] is the
    method of that name, taken as a function of the request options; the
    three [__nock_] properties written by [add] and the one written by
    [interceptorsFor] keep their names. *)
Record Interceptor : Type := mkInterceptor {
  _key : string;
  counter : Z;
  allowUnmocked : bool;
  matchIndependentOfBody : Options -> bool;
  __nock_scope : Scope;
  __nock_scopeKey : string;
  __nock_scopeOptions : ScopeOptions;
  __nock_filteredScope : option string
}.

Definition set_counter (v : Z) (i : Interceptor) : Interceptor :=
  mkInterceptor (_key i) v (allowUnmocked i) (matchIndependentOfBody i)
    (__nock_scope i) (__nock_scopeKey i) (__nock_scopeOptions i)
    (__nock_filteredScope i).

Definition set_filteredScope (v : option string) (i : Interceptor)
  : Interceptor :=
  mkInterceptor (_key i) (counter i) (allowUnmocked i)
    (matchIndependentOfBody i) (__nock_scope i) (__nock_scopeKey i)
    (__nock_scopeOptions i) v.

Definition set_registration (scope : Scope) (key : string)
    (scopeOptions : ScopeOptions) (i : Interceptor) : Interceptor :=
  mkInterceptor (_key i) (counter i) (allowUnmocked i)
    (matchIndependentOfBody i) scope key scopeOptions
    (__nock_filteredScope i).

(** The object [allInterceptors]: keys in insertion order, each with its
    array of interceptors. *)
Definition Registry : Type := list (string * list ref).

Fixpoint get (key : string) (m : Registry) : option (list ref) :=
  match m with
  | [] => None
  | (k, v) :: m' => if String.eqb k key then Some v else get key m'
  end.

(** Assignment to the array stored under [key]; a new key goes last. *)
Fixpoint put (key : string) (v : list ref) (m : Registry) : Registry :=
  match m with
  | [] => [(key, v)]
  | (k, w) :: m' =>
      if String.eqb k key then (k, v) :: m' else (k, w) :: put key v m'
  end.

(** The module state: the two module-level variables and the interceptor
    objects they refer to.  [allowNetConnect] is [false] ([None]) or a
    regular expression, kept as its [test]. *)
Record State : Type := mkState {
  allInterceptors : Registry;
  allowNetConnect : option (string -> bool);
  objects : ref -> Interceptor
}.

Definition update (r : ref) (i : Interceptor) (h : ref -> Interceptor)
  : ref -> Interceptor :=
  fun r' => if Nat.eqb r' r then i else h r'.

(** The regular expression [/.*/]: it matches the empty prefix of every
    string. *)
Definition match_all : string -> bool := fun _ => true.

(** The state the module starts in: [allInterceptors = {}] and
    [allowNetConnect = /.*/]. *)
Definition initial (objects : ref -> Interceptor) : State :=
  mkState [] (Some match_all) objects.

Definition NetConnectNotAllowedError (host : string) : JS.Error :=
  JS.mkError "NetConnectNotAllowedError"
    ("Nock: Not allow net connect for " ++ JS.dquote ++ host ++ JS.dquote).

(** The argument of [enableNetConnect]. *)
Inductive Matcher : Type :=
| MString (s : string)
| MRegExp (test : string -> bool)
| MNone.

Definition disableNetConnect (st : State) : State :=
  mkState (allInterceptors st) None (objects st).

(** [process.env]. *)
Record Env : Type := mkEnv { NOCK_OFF : option string }.

Definition isOff (env : Env) : bool := strict_eq (NOCK_OFF env) "true".
Definition isOn (env : Env) : bool := negb (isOff env).

Definition add (key : string) (interceptor : ref) (scope : Scope)
    (scopeOptions : ScopeOptions) (st : State) : State :=
  let all :=
    match get key (allInterceptors st) with
    | Some _ => allInterceptors st
    | None => put key [] (allInterceptors st)
    end in
  let objs :=
    update interceptor
      (set_registration scope key scopeOptions (objects st interceptor))
      (objects st) in
  let group := match get key all with Some g => g | None => [] end in
  mkState (put key (group ++ [interceptor]) all) (allowNetConnect st) objs.

(** [interceptors.splice(i, 1)] at the first [i] holding [r]. *)
Fixpoint splice_first (r : ref) (l : list ref) : list ref :=
  match l with
  | [] => []
  | x :: l' => if Nat.eqb x r then l' else x :: splice_first r l'
  end.

Definition removeAll (st : State) : State :=
  mkState [] (allowNetConnect st) (objects st).

Definition normalizeForRequest (options : Options) : Options :=
  let options :=
    set_proto (Some (or_string (proto options) "http")) options in
  let options :=
    set_port (Some (or_port (port options)
                      (if strict_eq (proto options) "http"
                       then PNum 80 else PNum 443))) options in
  let options :=
    match host options with
    | Some h =>
        if JS.truthy_string h then
          set_hostname
            (Some (or_string (hostname options) (JS.before_first ":" h)))
            options
        else options
    | None => options
    end in
  let options :=
    set_host (Some (or_string (hostname options) "localhost"
                    ++ ":" ++ port_text (port options))) options in
  options.

(** [options.proto + '://' + options.host]. *)
Definition basePath_of (options : Options) : string :=
  JS.text (proto options) ++ "://" ++ JS.text (host options).

(** The test of the inner loop of [interceptorsFor]: the scope filtering
    function is defined and returns a truthy value. *)
Definition accepts (st : State) (basePath : string) (scope : ref) : bool :=
  match scopeFiltering (__nock_scopeOptions (objects st scope)) with
  | Some f => f basePath
  | None => false
  end.

(** The two nested [_.each] loops: keys in insertion order, the array of
    each key from its first element, both left at the first accepted
    scope.  The result is that scope and the array it was found in. *)
Fixpoint each_key (st : State) (basePath : string) (all : Registry)
  : option (ref * list ref) :=
  match all with
  | [] => None
  | (_, interceptor) :: rest =>
      match find (accepts st basePath) interceptor with
      | Some scope => Some (scope, interceptor)
      | None => each_key st basePath rest
      end
  end.

Definition interceptorsFor (st : State) (options : Options)
  : State * Options * list ref :=
  let options := normalizeForRequest options in
  let basePath := basePath_of options in
  match each_key st basePath (allInterceptors st) with
  | Some (scope, matchingInterceptor) =>
      let o := objects st scope in
      (mkState (allInterceptors st) (allowNetConnect st)
         (update scope (set_filteredScope (Some (__nock_scopeKey o)) o)
            (objects st)),
       options, matchingInterceptor)
  | None =>
      (st, options,
       match get basePath (allInterceptors st) with
       | Some l => l
       | None => []
       end)
  end.

Definition isEnabledForNetConnect (st : State) (options : Options)
  : Options * bool :=
  let options := normalizeForRequest options in
  (options,
   match allowNetConnect st with
   | Some test => test (JS.text (host options))
   | None => false
   end).

(** The request object built by [new OverridenClientRequest(options)]:
    it carries the overrider of the interceptors found by its own lookup,
    or it is a plain [ClientRequest]. *)
Inductive ClientRequest : Type :=
| WithOverrider (interceptors : list ref)
| Plain.

Definition OverridenClientRequest (st : State) (options : Options)
  : State * Options * ClientRequest :=
  let '(st, options, interceptors) := interceptorsFor st options in
  if (0 <? Z.of_nat (length interceptors))
  then (st, options, WithOverrider interceptors)
  else (st, options, Plain).

(** The two modules whose [request] is overridden. *)
Inductive Proto : Type := http | https.

Definition proto_name (p : Proto) : string :=
  match p with http => "http" | https => "https" end.

(** What the overriding [request] returns: the result of the original
    [request] of the module, or the overridden request object on which
    [RequestOverrider] was started with the given interceptors. *)
Inductive Outcome : Type :=
| OldRequest
| Overridden (req : ClientRequest) (interceptors : list ref).

(** The body of the [forEach] callback, on the pair of local variables
    [(matches, allowUnmocked)]. *)
Definition inspect (st : State) (options : Options)
    (vars : bool * bool) (interceptor : ref) : bool * bool :=
  let '(matches, allow) := vars in
  let allow :=
    if negb allow && allowUnmocked (objects st interceptor) then true
    else allow in
  let matches :=
    if matchIndependentOfBody (objects st interceptor) options then true
    else matches in
  (matches, allow).

(** A call of the overriding [request]: the state and options it leaves,
    the interceptors whose [matchIndependentOfBody] it called, and what
    it returned or threw. *)
Record Call : Type := mkCall {
  state_after : State;
  options_after : Options;
  match_calls : list ref;
  outcome : JS.result Outcome
}.

Section Node.

(** Node's [url.parse], and [new RegExp(source)], which throws on a
    malformed source and otherwise gives an object kept as its [test]. *)
Variable parse : string -> Url.t.
Variable RegExp : string -> JS.result (string -> bool).

Definition enableNetConnect (matcher : Matcher) (st : State)
  : JS.result State :=
  match matcher with
  | MString source =>
      match RegExp source with
      | JS.Ok test =>
          JS.Ok (mkState (allInterceptors st) (Some test) (objects st))
      | JS.Throw e => JS.Throw e
      end
  | MRegExp test =>
      JS.Ok (mkState (allInterceptors st) (Some test) (objects st))
  | MNone =>
      JS.Ok (mkState (allInterceptors st) (Some match_all) (objects st))
  end.

(** [remove(interceptor)].  The [var interceptor] among the locals only
    declares the parameter again.  A [_key] without a second word gives
    [url.parse] an [undefined] argument, which it refuses. *)
Definition remove (interceptor : ref) (st : State) : JS.result State :=
  let o := objects st interceptor in
  if shouldPersist (__nock_scope o) then JS.Ok st
  else if counter o >? 1 then
    JS.Ok (mkState (allInterceptors st) (allowNetConnect st)
             (update interceptor (set_counter (counter o - 1) o)
                (objects st)))
  else
    match nth_error (JS.split " " (_key o)) 1 with
    | None => JS.Throw (JS.TypeError "Parameter 'url' must be a string")
    | Some k1 =>
        let u := parse k1 in
        let hostKey :=
          Url.text (Url.protocol u) ++ "//" ++ Url.text (Url.host u) in
        match get hostKey (allInterceptors st) with
        | Some interceptors =>
            JS.Ok (mkState
                     (put hostKey (splice_first interceptor interceptors)
                        (allInterceptors st))
                     (allowNetConnect st) (objects st))
        | None => JS.Ok st
        end
    end.

(** [module.request = function(options, callback)] for the module
    [proto].  The argument is a URL string or an options object. *)
Definition request (env : Env) (proto : Proto) (st : State)
    (arg : string + Options) : Call :=
  let options :=
    match arg with inl s => Url.as_options (parse s) | inr o => o end in
  let options := set_proto (Some (proto_name proto)) options in
  let '(st, options, interceptors) := interceptorsFor st options in
  if isOn env && (0 <? Z.of_nat (length interceptors)) then
    let '(matches, allow) :=
      fold_left (inspect st options) interceptors (false, false) in
    if negb matches && allow then
      mkCall st options interceptors (JS.Ok OldRequest)
    else
      let '(st, options, req) := OverridenClientRequest st options in
      mkCall st options interceptors (JS.Ok (Overridden req interceptors))
  else
    if isOff env then mkCall st options [] (JS.Ok OldRequest)
    else
      let '(options, enabled) := isEnabledForNetConnect st options in
      if enabled then mkCall st options [] (JS.Ok OldRequest)
      else
        mkCall st options []
          (JS.Throw (NetConnectNotAllowedError (JS.text (host options)))).

End Node.

End Intercept.

(** ** lib/recorder.js *)

Module Recorder.

(** [buffer.toString('hex')]: two lower-case digits per byte. *)
Definition hex_digit (n : N) : ascii :=
  match n with
  | 0%N => "0" | 1%N => "1" | 2%N => "2" | 3%N => "3"
  | 4%N => "4" | 5%N => "5" | 6%N => "6" | 7%N => "7"
  | 8%N => "8" | 9%N => "9" | 10%N => "a" | 11%N => "b"
  | 12%N => "c" | 13%N => "d" | 14%N => "e" | _ => "f"
  end%char.

Fixpoint toString_hex (buffer : list Byte.byte) : string :=
  match buffer with
  | [] => EmptyString
  | b :: rest =>
      let n := Byte.to_N b in
      String (hex_digit (n / 16)) (String (hex_digit (n mod 16))
                                     (toString_hex rest))
  end.

Definition getScope (options : Options) : Options * JS.result string :=
  let options := Common.normalizeRequestOptions options in
  let scope : list string := [] in
  let scope :=
    if _https_ options then (scope ++ ["https://"])%list
    else (scope ++ ["http://"])%list in
  match host options with
  | None =>
      (options,
       JS.Throw (JS.TypeError "Cannot call method 'indexOf' of undefined"))
  | Some h =>
      let scope := (scope ++ [h])%list in
      let scope :=
        if (JS.indexOf ":" h =? -1)
           && port_truthy (port options)
           && ((_https_ options
                && negb (String.eqb (port_text (port options)) "443"))
               || (negb (_https_ options)
                   && negb (String.eqb (port_text (port options)) "80")))
        then ((scope ++ [":"]) ++ [port_text (port options)])%list
        else scope in
      (options, JS.Ok (JS.join scope))
  end.

Definition getMethod (options : Options) : string :=
  or_string (method options) "GET".

(** What [getBodyFromChunks] returns: a string, or the value built by
    [JSON.parse]. *)
Inductive Body (Json : Type) : Type :=
| Str (s : string)
| Parsed (j : Json).
Arguments Str {Json} s.
Arguments Parsed {Json} j.

Section Bodies.

(** [common.mergeChunks] and [common.isBinaryBuffer], the UTF-8 decoding
    of a buffer, and [JSON.parse], which throws on a text that is not
    JSON. *)
Variable Json : Type.
Variable mergeChunks : list (list Byte.byte) -> list Byte.byte.
Variable isBinaryBuffer : list Byte.byte -> bool.
Variable toString_utf8 : list Byte.byte -> string.
Variable JSON_parse : string -> JS.result Json.

Definition getBodyFromChunks (chunks : list (list Byte.byte))
  : Body Json :=
  let mergedBuffer := mergeChunks chunks in
  if isBinaryBuffer mergedBuffer then Str (toString_hex mergedBuffer)
  else
    let maybeStringifiedJson := toString_utf8 mergedBuffer in
    match JSON_parse maybeStringifiedJson with
    | JS.Ok value => Parsed value
    | JS.Throw _ => Str maybeStringifiedJson
    end.

End Bodies.

(** The argument of [record]: a boolean, an object with the two flags,
    or nothing. *)
Inductive RecOptions : Type :=
| RBoolean (b : bool)
| RObject (dont_print output_objects : bool)
| RUndefined.

(** The two variables the recording callback closes over. *)
Record Callback : Type := mkCallback {
  dont_print : bool;
  output_objects : bool
}.

Section Overrides.

(** The state of the overridden [http] and [https] modules, with
    [common.restoreOverriddenRequests],
    [intercept.restoreOverriddenClientRequest] and
    [common.overrideRequests] acting on it. *)
Variable Modules : Type.
Variable Output : Type.
Variable restoreOverriddenRequests : Modules -> Modules.
Variable restoreOverriddenClientRequest : Modules -> Modules.
Variable overrideRequests : Callback -> Modules -> Modules.

Record State : Type := mkState {
  recordingInProgress : bool;
  outputs : list Output;
  modules : Modules
}.

Definition record (rec_options : RecOptions) (st : State)
  : JS.result State :=
  if recordingInProgress st then
    JS.Throw (JS.mkError "Error" "Nock recording already in progress")
  else
    let dont_print :=
      match rec_options with
      | RBoolean b => b
      | RObject d _ => d
      | RUndefined => false
      end in
    let output_objects :=
      match rec_options with
      | RObject _ o => o
      | _ => false
      end in
    let m := restoreOverriddenRequests (modules st) in
    let m := restoreOverriddenClientRequest m in
    let m := overrideRequests (mkCallback dont_print output_objects) m in
    JS.Ok (mkState true (outputs st) m).

Definition restore (st : State) : State :=
  let m := restoreOverriddenRequests (modules st) in
  let m := restoreOverriddenClientRequest m in
  mkState false (outputs st) m.

Definition clear (st : State) : State :=
  mkState (recordingInProgress st) [] (modules st).

End Overrides.

Arguments mkState {Modules Output} _ _ _.
Arguments recordingInProgress {Modules Output} _.
Arguments outputs {Modules Output} _.
Arguments modules {Modules Output} _.

End Recorder.

(** * Reading the options as a request address *)

(** The port the scheme stands for: 80 for http, 443 for anything else. *)
Definition default_port (scheme : string) : port_value :=
  if String.eqb scheme "http" then PNum 80 else PNum 443.

(** The scheme, host name and port a request is for, read off the options
    as given: a missing or empty property gives way to its default. *)
Definition effective_scheme (o : Options) : string :=
  or_string (proto o) "http".

Definition effective_port (o : Options) : port_value :=
  or_port (port o) (default_port (effective_scheme o)).

Definition effective_hostname (o : Options) : string :=
  or_string
    (if JS.truthy_opt (host o)
     then Some (or_string (hostname o) (JS.before_first ":" (JS.text (host o))))
     else hostname o)
    "localhost".

(** The canonical key of a request: [scheme://host] of its normalized
    options. *)
Definition canonical_key (o : Options) : string :=
  Intercept.basePath_of (Common.normalizeRequestOptions o).

(** * Sample options *)

(** [{host: 'example.com:8080'}] *)
Definition host_with_port : Options :=
  set_host (Some "example.com:8080") no_options.

(** [{host: 'example.com', proto: 'https'}] *)
Definition host_with_https : Options :=
  set_proto (Some "https") (set_host (Some "example.com") no_options).

(** [{host: 'example.com'}] and [{host: 'example.com:80', port: '80'}], the
    second as [url.parse] fills it. *)
Definition host_only : Options :=
  set_host (Some "example.com") no_options.

Definition host_and_port : Options :=
  set_port (Some (PStr "80")) (set_host (Some "example.com:80") no_options).

(** * Reading the registry *)

(** [allInterceptors] is an object: a key occurs once. *)
Definition unique_keys (all : Intercept.Registry) : Prop :=
  NoDup (map fst all).

(** The interceptor [e] is filed once: the array under [key] holds it
    exactly once and no other array holds it. *)
Definition filed_once (all : Intercept.Registry) (key : string)
    (e : Intercept.ref) : Prop :=
  exists l,
    Intercept.get key all = Some l /\
    count_occ Nat.eq_dec l e = 1%nat /\
    forall k g, In (k, g) all -> k <> key -> ~ In e g.

(** [n] calls of [remove] on the same interceptor, one after the other. *)
Fixpoint remove_times (parse : string -> Url.t) (n : nat)
    (e : Intercept.ref) (st : Intercept.State) : JS.result Intercept.State :=
  match n with
  | O => JS.Ok st
  | S n' =>
      match Intercept.remove parse e st with
      | JS.Ok st' => remove_times parse n' e st'
      | JS.Throw err => JS.Throw err
      end
  end.

(** The interceptors a lookup returns. *)
Definition found (st : Intercept.State) (o : Options) : list Intercept.ref :=
  snd (Intercept.interceptorsFor st o).

(** Two stores that differ at most in the [__nock_filteredScope] marks. *)
Definition same_but_marks (h h' : Intercept.ref -> Intercept.Interceptor)
  : Prop :=
  forall r, exists v, h' r = Intercept.set_filteredScope v (h r).

(** The options a call of the overriding [request] works on: the argument,
    parsed when it is a string, with [proto] set to the module name. *)
Definition request_options (parse : string -> Url.t) (proto : Intercept.Proto)
    (arg : string + Options) : Options :=
  set_proto (Some (Intercept.proto_name proto))
    (match arg with inl s => Url.as_options (parse s) | inr o => o end).

(** Some candidate matches the request independently of the body; some
    candidate has [allowUnmocked] set. *)
Definition some_match (st : Intercept.State) (options : Options)
    (candidates : list Intercept.ref) : bool :=
  existsb (fun r => Intercept.matchIndependentOfBody
                      (Intercept.objects st r) options) candidates.

Definition some_allowUnmocked (st : Intercept.State)
    (candidates : list Intercept.ref) : bool :=
  existsb (fun r => Intercept.allowUnmocked (Intercept.objects st r))
    candidates.

(** * Sample registrations *)

Module Sample.
Import Intercept.

(** What [url.parse] answers on a URL of the shape
    [scheme://host:port/path], the only shape the samples use. *)
Definition parse (s : string) : Url.t :=
  match JS.after_first ":" s with
  | Some (String "/" (String "/" rest)) =>
      let authority := JS.before_first "/" rest in
      Url.mk (Some (JS.before_first ":" s ++ ":")) (Some authority)
        (Some (JS.before_first ":" authority))
        (JS.after_first ":" authority)
        (option_map (String "/") (JS.after_first "/" rest))
  | _ => Url.mk None None None None (Some s)
  end.

(** A regular expression source is compiled to the test that looks for
    the source as a substring, enough for sources without operators. *)
Fixpoint contains (fuel : nat) (needle s : string) : bool :=
  if String.prefix needle s then true
  else match fuel, s with
       | S fuel', String _ s' => contains fuel' needle s'
       | _, _ => false
       end.

Definition RegExp (source : string) : JS.result (string -> bool) :=
  JS.Ok (fun s => contains (String.length s) source s).

(** An interceptor as [scope.get('/items')] builds it, before [add]. *)
Definition interceptor (key : string) (count : Z) (unmocked : bool)
  : Interceptor :=
  mkInterceptor key count unmocked
    (fun o => strict_eq (path o) "/items")
    (mkScope false) "" (mkScopeOptions None) None.

Definition heap : ref -> Interceptor :=
  fun r =>
    match r with
    | 0%nat => interceptor "GET http://api.test:80/items" 1 false
    | 1%nat => interceptor "GET http://api.test:80/items" 2 false
    | 2%nat => interceptor "GET http://api.test:80/items" 1 false
    | 3%nat => interceptor "GET http://files.test:80/items" 1 false
    | _ => interceptor "POST http://files.test:80/upload" 1 true
    end.

Definition nothing : State := initial heap.

(** The filter of the second scope takes every request to a [cdn.] host. *)
Definition cdn_filter : string -> bool :=
  String.prefix "http://cdn.".

(** Three interceptors of [http://api.test:80], the third of a persistent
    scope, and two of a filtering scope [http://files.test:80]. *)
Definition registered : State :=
  add "http://files.test:80" 4%nat (mkScope false)
      (mkScopeOptions (Some cdn_filter))
    (add "http://files.test:80" 3%nat (mkScope false) (mkScopeOptions None)
       (add "http://api.test:80" 2%nat (mkScope true) (mkScopeOptions None)
          (add "http://api.test:80" 1%nat (mkScope false) (mkScopeOptions None)
             (add "http://api.test:80" 0%nat (mkScope false)
                (mkScopeOptions None) nothing)))).

(** [{host: 'api.test', path: '/items'}] and the same on two other
    hosts. *)
Definition to_host (h : string) (p : string) : Options :=
  mkOptions None None None (Some h) false None (Some p).

Definition to_api : Options := to_host "api.test" "/items".
Definition to_cdn : Options := to_host "cdn.test" "/items".
Definition to_nowhere : Options := to_host "zombo.com" "/".

Definition kill_switch : Env := mkEnv (Some "true").
Definition no_switch : Env := mkEnv None.

(** Stand-ins for the collaborators of the recorder: chunks are merged by
    concatenation, a buffer is binary when it holds a byte above 127,
    the decoding reads one character per byte, and the parser takes the
    texts that open with a brace, which it keeps as they are. *)
Definition mergeChunks : list (list Byte.byte) -> list Byte.byte :=
  @List.concat Byte.byte.

Definition isBinaryBuffer (buffer : list Byte.byte) : bool :=
  existsb (fun b => (127 <? Byte.to_N b)%N) buffer.

Definition toString_utf8 : list Byte.byte -> string :=
  string_of_list_byte.

Definition JSON_parse (text : string) : JS.result string :=
  if String.prefix "{" text then JS.Ok text
  else JS.Throw (JS.mkError "SyntaxError" "Unexpected token").

Definition json_chunks : list (list Byte.byte) :=
  [list_byte_of_string "{a:"; list_byte_of_string "1}"].

Definition text_chunks : list (list Byte.byte) :=
  [list_byte_of_string "plain "; list_byte_of_string "text"].

Definition binary_chunks : list (list Byte.byte) :=
  [[Byte.xde; Byte.xad]; [Byte.xbe; Byte.xef]].

(** The overridden modules as the list of the calls made on them, last
    call first. *)
Definition restoreOverriddenRequests (m : list string) : list string :=
  "restoreOverriddenRequests" :: m.
Definition restoreOverriddenClientRequest (m : list string) : list string :=
  "restoreOverriddenClientRequest" :: m.
Definition overrideRequests (c : Recorder.Callback) (m : list string)
  : list string :=
  "overrideRequests" :: m.

Definition record :=
  Recorder.record (list string) string restoreOverriddenRequests
    restoreOverriddenClientRequest overrideRequests.
Definition restore :=
  Recorder.restore (list string) string restoreOverriddenRequests
    restoreOverriddenClientRequest.
Definition idle : Recorder.State (list string) string :=
  Recorder.mkState false [] [].
End Sample.

(** * More of lib/recorder.js *)

(** Reading a hex string back, as [new Buffer(text, 'hex')] does on the
    strings [toString('hex')] writes. *)
Module Hex.

(** The value of a digit, from its character code: [0] to [9] are 48 to
    57, [a] to [f] are 97 to 102. *)
Definition digit_value (c : ascii) : option N :=
  let code := N_of_ascii c in
  if (48 <=? code)%N && (code <=? 57)%N then Some (code - 48)%N
  else if (97 <=? code)%N && (code <=? 102)%N then Some (code - 87)%N
  else None.

Definition byte_of_digits (hi lo : ascii) : option Byte.byte :=
  match digit_value hi, digit_value lo with
  | Some h, Some l => Byte.of_N (16 * h + l)
  | _, _ => None
  end.

Fixpoint decode (text : string) : option (list Byte.byte) :=
  match text with
  | EmptyString => Some []
  | String hi (String lo rest) =>
      match byte_of_digits hi lo, decode rest with
      | Some b, Some bs => Some (b :: bs)
      | _, _ => None
      end
  | String _ EmptyString => None
  end.

End Hex.

Module Recording.

(** What a caller passes to [req.write]. *)
Inductive Data : Type :=
| DUndefined
| DNull
| DString (s : string)
| DBuffer (b : list Byte.byte).

(** ['undefined' !== typeof(data)] *)
Definition defined (data : Data) : bool :=
  match data with DUndefined => false | _ => true end.

(** [if (data)]: a buffer is an object, truthy even when empty. *)
Definition truthy (data : Data) : bool :=
  match data with
  | DString s => JS.truthy_string s
  | DBuffer _ => true
  | _ => false
  end.

(** The request being recorded: the chunks kept in [bodyChunks] and the
    calls passed on to the [write] the request had. *)
Record Request : Type := mkRequest {
  bodyChunks : list Data;
  oldWrite : list Data
}.

(** The [req.write] the recorder installs. *)
Definition write (data : Data) (req : Request) : Request :=
  if defined data then
    let chunks :=
      if truthy data then (bodyChunks req ++ [data])%list
      else bodyChunks req in
    mkRequest chunks (oldWrite req ++ [data])%list
  else req.

(** The line feed, and the separator printed around an output. *)
Definition newline : string := String (ascii_of_nat 10) EmptyString.

Definition SEPARATOR : string :=
  newline ++ "<<<<<<-- cut here -->>>>>>" ++ newline.

(** The structured record of an exchange. *)
Module Recorded.
Record t (Json Headers : Type) : Type := mk {
  scope : string;
  method : string;
  path : option string;
  body : Recorder.Body Json;
  status : Z;
  response : Recorder.Body Json;
  headers : Headers;
  reqheaders : Headers
}.
Arguments mk {Json Headers} _ _ _ _ _ _ _ _.
Arguments scope {Json Headers} _.
Arguments method {Json Headers} _.
Arguments path {Json Headers} _.
Arguments body {Json Headers} _.
Arguments status {Json Headers} _.
Arguments response {Json Headers} _.
Arguments headers {Json Headers} _.
Arguments reqheaders {Json Headers} _.
End Recorded.

Section Objects.

Variable Json Headers : Type.
Variable mergeChunks : list (list Byte.byte) -> list Byte.byte.
Variable isBinaryBuffer : list Byte.byte -> bool.
Variable toString_utf8 : list Byte.byte -> string.
Variable JSON_parse : string -> JS.result Json.

(** [generateRequestAndResponseObject(req, bodyChunks, options, res,
    dataChunks)], with [req.headers], [res.statusCode] and [res.headers]
    for [req] and [res].  The properties are evaluated in the order they
    are written, [getScope] first, which normalizes [options]. *)
Definition generateRequestAndResponseObject (req_headers : Headers)
    (bodyChunks : list (list Byte.byte)) (options : Options)
    (res_statusCode : Z) (res_headers : Headers)
    (dataChunks : list (list Byte.byte))
  : Options * JS.result (Recorded.t Json Headers) :=
  let '(options, scope) := Recorder.getScope options in
  match scope with
  | JS.Throw err => (options, JS.Throw err)
  | JS.Ok scope =>
      (options,
       JS.Ok (Recorded.mk scope (Recorder.getMethod options) (path options)
                (Recorder.getBodyFromChunks Json mergeChunks isBinaryBuffer
                   toString_utf8 JSON_parse bodyChunks)
                res_statusCode
                (Recorder.getBodyFromChunks Json mergeChunks isBinaryBuffer
                   toString_utf8 JSON_parse dataChunks)
                res_headers req_headers))
  end.

End Objects.

Section Session.

Variable Modules Output : Type.
Variable restoreOverriddenRequests : Modules -> Modules.
Variable restoreOverriddenClientRequest : Modules -> Modules.
Variable overrideRequests : Recorder.Callback -> Modules -> Modules.

(** What [+] makes of an output between two separators. *)
Variable text : Output -> string.

(** The recorder with the lines written by [console.log]. *)
Record World : Type := mkWorld {
  recorder : Recorder.State Modules Output;
  console : list string
}.

(** The handler of the [end] event of a response: [out] is the structured
    record or the script, as [output_objects] says. *)
Definition on_end (cb : Recorder.Callback) (object script : Output)
    (w : World) : World :=
  let out := if Recorder.output_objects cb then object else script in
  let st := recorder w in
  mkWorld
    (Recorder.mkState (Recorder.recordingInProgress st)
       (Recorder.outputs st ++ [out])%list (Recorder.modules st))
    (if Recorder.dont_print cb then console w
     else (console w ++ [(SEPARATOR ++ text out ++ SEPARATOR)%string])%list).

(** The calls a program makes on the recorder, and the responses that
    end. *)
Inductive Event : Type :=
| Record_ (rec_options : Recorder.RecOptions)
| Restore
| Clear
| End_ (cb : Recorder.Callback) (object script : Output).

(** One event.  A [record] that throws has changed nothing. *)
Definition step (w : World) (ev : Event) : World :=
  match ev with
  | Record_ rec_options =>
      match Recorder.record Modules Output restoreOverriddenRequests
              restoreOverriddenClientRequest overrideRequests rec_options
              (recorder w) with
      | JS.Ok st => mkWorld st (console w)
      | JS.Throw _ => w
      end
  | Restore =>
      mkWorld (Recorder.restore Modules Output restoreOverriddenRequests
                 restoreOverriddenClientRequest (recorder w)) (console w)
  | Clear => mkWorld (Recorder.clear Modules Output (recorder w)) (console w)
  | End_ cb object script => on_end cb object script w
  end.

Definition run (events : list Event) (w : World) : World :=
  fold_left step events w.

(** The outputs and the lines a sequence of events leaves, and whether it
    leaves a recording in progress, each read off the events alone. *)
Definition out_of (cb : Recorder.Callback) (object script : Output)
  : Output :=
  if Recorder.output_objects cb then object else script.

Fixpoint outputs_of (events : list Event) (acc : list Output)
  : list Output :=
  match events with
  | [] => acc
  | Clear :: rest => outputs_of rest []
  | End_ cb object script :: rest =>
      outputs_of rest (acc ++ [out_of cb object script])
  | _ :: rest => outputs_of rest acc
  end.

Fixpoint printed_of (events : list Event) : list string :=
  match events with
  | [] => []
  | End_ cb object script :: rest =>
      if Recorder.dont_print cb then printed_of rest
      else (SEPARATOR ++ text (out_of cb object script) ++ SEPARATOR)
             :: printed_of rest
  | _ :: rest => printed_of rest
  end.

Fixpoint in_progress_of (events : list Event) (flag : bool) : bool :=
  match events with
  | [] => flag
  | Record_ _ :: rest => in_progress_of rest true
  | Restore :: rest => in_progress_of rest false
  | _ :: rest => in_progress_of rest flag
  end.

End Session.

Arguments recorder {Modules Output} _.
Arguments console {Modules Output} _.
Arguments mkWorld {Modules Output} _ _.
Arguments Record_ {Output} _.
Arguments Restore {Output}.
Arguments Clear {Output}.
Arguments End_ {Output} _ _ _.

End Recording.

(** * Further samples *)

Module Fixture.

(** [{host: 'a.example:1', hostname: 'b.example'}] and [{host: '::1'}]. *)
Definition two_names : Options :=
  set_hostname (Some "b.example") (set_host (Some "a.example:1") no_options).

Definition ipv6_loopback : Options := set_host (Some "::1") no_options.

(** The options of an https request as the recorder gets them from a
    caller that gave the host only, and from one that gave [proto] too. *)
Definition https_host_only : Options :=
  mkOptions None None None (Some "example.com") true None (Some "/").

Definition https_with_proto : Options :=
  mkOptions (Some "https") None None (Some "example.com") true None
    (Some "/").

End Fixture.

(** * Properties *)

(** ** Strings *)

Lemma indexOf_lower_bound (c : ascii) (s : string) : -1 <= JS.indexOf c s.
Proof.
  induction s as [|a s IH]; simpl; [lia|].
  destruct (Ascii.eqb a c); [lia|].
  destruct (JS.indexOf c s <? 0) eqn:E; [lia|].
  apply Z.ltb_ge in E. lia.
Qed.

Lemma indexOf_found (c : ascii) (s t : string) :
  0 <= JS.indexOf c (s ++ String c t).
Proof.
  induction s as [|a s IH]; simpl.
  - rewrite Ascii.eqb_refl. lia.
  - destruct (Ascii.eqb a c); [lia|].
    destruct (JS.indexOf c (s ++ String c t) <? 0) eqn:E.
    + apply Z.ltb_lt in E. lia.
    + lia.
Qed.

(** [s.split(c)[0]] is the text before the first separator. *)
Lemma split_head (c : ascii) (s : string) :
  nth_error (JS.split c s) 0 = Some (JS.before_first c s).
Proof.
  unfold JS.split. destruct (String.length s); simpl; [reflexivity|].
  destruct (JS.after_first c s); reflexivity.
Qed.

Lemma before_first_app (c : ascii) (s t : string) :
  JS.indexOf c s = -1 ->
  JS.before_first c (s ++ String c t) = s.
Proof.
  induction s as [|a s IH]; simpl; intros H.
  - rewrite Ascii.eqb_refl. reflexivity.
  - destruct (Ascii.eqb a c); [discriminate|].
    destruct (JS.indexOf c s <? 0) eqn:E.
    + f_equal. apply IH. apply Z.ltb_lt in E.
      pose proof (indexOf_lower_bound c s). lia.
    + apply Z.ltb_ge in E. lia.
Qed.

Lemma before_first_none (c : ascii) (s : string) :
  JS.indexOf c s = -1 -> JS.before_first c s = s.
Proof.
  induction s as [|a s IH]; simpl; intros H; [reflexivity|].
  destruct (Ascii.eqb a c); [discriminate|].
  destruct (JS.indexOf c s <? 0) eqn:E.
  - f_equal. apply IH. apply Z.ltb_lt in E.
    pose proof (indexOf_lower_bound c s). lia.
  - apply Z.ltb_ge in E. lia.
Qed.

Lemma append_empty_r (s : string) : s ++ EmptyString = s.
Proof. induction s as [|a s IH]; simpl; [|rewrite IH]; reflexivity. Qed.

Lemma truthy_app_colon (s t : string) :
  JS.truthy_string (s ++ ":" ++ t) = true.
Proof. destruct s; reflexivity. Qed.

Lemma or_string_truthy (a : option string) (b : string) :
  JS.truthy_string b = true -> JS.truthy_string (or_string a b) = true.
Proof.
  intros Hb. destruct a as [s|]; simpl; [|exact Hb].
  destruct (JS.truthy_string s) eqn:E; [exact E|exact Hb].
Qed.

Lemma or_string_keep (a : option string) (b : string) :
  JS.truthy_opt a = true -> Some (or_string a b) = a.
Proof.
  destruct a as [s|]; simpl; [|discriminate].
  intros H. rewrite H. reflexivity.
Qed.

Lemma or_string_default (a : option string) (b : string) :
  JS.truthy_opt a = false -> or_string a b = b.
Proof.
  destruct a as [s|]; simpl; [|reflexivity].
  intros H. rewrite H. reflexivity.
Qed.

Lemma or_port_truthy (a : option port_value) (b : port_value) :
  port_truthy (Some b) = true -> port_truthy (Some (or_port a b)) = true.
Proof.
  intros Hb. destruct a as [p|]; [|exact Hb].
  unfold or_port. destruct (port_truthy (Some p)) eqn:E; [exact E|exact Hb].
Qed.

Lemma or_port_keep (p b : port_value) :
  port_truthy (Some p) = true -> or_port (Some p) b = p.
Proof. intros H. unfold or_port. rewrite H. reflexivity. Qed.

Lemma or_port_default (a : option port_value) (b : port_value) :
  port_truthy a = false -> or_port a b = b.
Proof.
  destruct a as [p|]; [|reflexivity].
  intros H. unfold or_port. rewrite H. reflexivity.
Qed.

(** ** Normalization *)
Lemma default_port_truthy (s : string) :
  port_truthy (Some (default_port s)) = true.
Proof. unfold default_port. destruct (String.eqb s "http"); reflexivity. Qed.

Lemma normalize_proto (o : Options) :
  proto (Common.normalizeRequestOptions o) = Some (effective_scheme o).
Proof.
  unfold Common.normalizeRequestOptions. simpl.
  destruct (host o) as [h|]; simpl; [destruct (JS.truthy_string h)|];
    reflexivity.
Qed.

Lemma normalize_port (o : Options) :
  port (Common.normalizeRequestOptions o) = Some (effective_port o).
Proof.
  unfold Common.normalizeRequestOptions. simpl.
  destruct (host o) as [h|]; simpl; [destruct (JS.truthy_string h)|];
    reflexivity.
Qed.

Lemma normalize_hostname (o : Options) :
  hostname (Common.normalizeRequestOptions o) =
  if JS.truthy_opt (host o)
  then Some (or_string (hostname o) (JS.before_first ":" (JS.text (host o))))
  else hostname o.
Proof.
  unfold Common.normalizeRequestOptions. simpl.
  destruct (host o) as [h|]; simpl; [destruct (JS.truthy_string h)|];
    reflexivity.
Qed.

Lemma normalize_host (o : Options) :
  host (Common.normalizeRequestOptions o) =
  Some (effective_hostname o ++ ":" ++ port_toString (effective_port o)).
Proof.
  unfold Common.normalizeRequestOptions, effective_hostname. simpl.
  destruct (host o) as [h|]; simpl; [destruct (JS.truthy_string h)|];
    reflexivity.
Qed.

Lemma normalize_rest (o : Options) :
  _https_ (Common.normalizeRequestOptions o) = _https_ o /\
  method (Common.normalizeRequestOptions o) = method o /\
  path (Common.normalizeRequestOptions o) = path o.
Proof.
  unfold Common.normalizeRequestOptions. simpl.
  destruct (host o) as [h|]; simpl; [destruct (JS.truthy_string h)|];
    repeat split; reflexivity.
Qed.

(** The copy in [lib/intercept.js] is the same function. *)
Lemma normalizeForRequest_same (o : Options) :
  Intercept.normalizeForRequest o = Common.normalizeRequestOptions o.
Proof. reflexivity. Qed.

Lemma Options_eq (a b : Options) :
  proto a = proto b -> port a = port b -> hostname a = hostname b ->
  host a = host b -> _https_ a = _https_ b -> method a = method b ->
  path a = path b -> a = b.
Proof.
  destruct a, b; simpl; intros; subst; reflexivity.
Qed.

Lemma or_string_some (s b : string) :
  JS.truthy_string s = true -> or_string (Some s) b = s.
Proof. intros H. simpl. rewrite H. reflexivity. Qed.

Lemma effective_scheme_truthy (o : Options) :
  JS.truthy_string (effective_scheme o) = true.
Proof. apply or_string_truthy. reflexivity. Qed.

Lemma effective_port_truthy (o : Options) :
  port_truthy (Some (effective_port o)) = true.
Proof. apply or_port_truthy, default_port_truthy. Qed.

Lemma effective_hostname_truthy (o : Options) :
  JS.truthy_string (effective_hostname o) = true.
Proof. apply or_string_truthy. reflexivity. Qed.

Lemma effective_hostname_normalized (o : Options) :
  effective_hostname o =
  or_string (hostname (Common.normalizeRequestOptions o)) "localhost".
Proof. rewrite normalize_hostname. reflexivity. Qed.

(** The three effective components survive a normalization. *)
Lemma effective_scheme_stable (o : Options) :
  effective_scheme (Common.normalizeRequestOptions o) = effective_scheme o.
Proof.
  unfold effective_scheme at 1. rewrite normalize_proto.
  apply or_string_some, effective_scheme_truthy.
Qed.

Lemma effective_port_stable (o : Options) :
  effective_port (Common.normalizeRequestOptions o) = effective_port o.
Proof.
  unfold effective_port at 1. rewrite normalize_port.
  apply or_port_keep, effective_port_truthy.
Qed.

(** The host name a second normalization reads back from the composed
    [host]. *)
Lemma hostname_read_back (o : Options) :
  or_string (hostname (Common.normalizeRequestOptions o))
    (JS.before_first ":"
       (effective_hostname o ++ ":" ++ port_toString (effective_port o)))
  = effective_hostname o.
Proof.
  rewrite effective_hostname_normalized.
  destruct (hostname (Common.normalizeRequestOptions o)) as [x|]; simpl.
  - destruct (JS.truthy_string x); reflexivity.
  - reflexivity.
Qed.

Lemma normalize_twice_hostname (o : Options) :
  hostname (Common.normalizeRequestOptions (Common.normalizeRequestOptions o))
  = Some (effective_hostname o).
Proof.
  rewrite normalize_hostname, normalize_host. simpl JS.text.
  unfold JS.truthy_opt. rewrite truthy_app_colon.
  rewrite hostname_read_back. reflexivity.
Qed.

Lemma effective_hostname_stable (o : Options) :
  effective_hostname (Common.normalizeRequestOptions o) = effective_hostname o.
Proof.
  rewrite effective_hostname_normalized, normalize_twice_hostname.
  apply or_string_some, effective_hostname_truthy.
Qed.

Lemma normalize_twice_endpoint (o : Options) :
  let once := Common.normalizeRequestOptions o in
  let twice := Common.normalizeRequestOptions once in
  proto twice = proto once /\ port twice = port once /\
  host twice = host once.
Proof.
  cbv zeta. rewrite !normalize_proto, !normalize_port, !normalize_host.
  rewrite effective_scheme_stable, effective_port_stable,
    effective_hostname_stable.
  repeat split; reflexivity.
Qed.

Lemma normalize_fixed_when_hostname (o : Options) :
  JS.truthy_opt (hostname (Common.normalizeRequestOptions o)) = true ->
  Common.normalizeRequestOptions (Common.normalizeRequestOptions o) =
  Common.normalizeRequestOptions o.
Proof.
  intros H.
  destruct (normalize_twice_endpoint o) as (Hp & Hq & Hh).
  destruct (normalize_rest (Common.normalizeRequestOptions o)) as (A & B & C).
  apply Options_eq; try assumption.
  rewrite normalize_twice_hostname, effective_hostname_normalized.
  apply or_string_keep, H.
Qed.

Lemma normalize_thrice (o : Options) :
  Common.normalizeRequestOptions
    (Common.normalizeRequestOptions (Common.normalizeRequestOptions o)) =
  Common.normalizeRequestOptions (Common.normalizeRequestOptions o).
Proof.
  apply normalize_fixed_when_hostname.
  rewrite normalize_twice_hostname. apply effective_hostname_truthy.
Qed.

Lemma canonical_key_eq (o : Options) :
  canonical_key o =
  effective_scheme o ++ "://" ++
  effective_hostname o ++ ":" ++ port_toString (effective_port o).
Proof.
  unfold canonical_key, Intercept.basePath_of.
  rewrite normalize_proto, normalize_host. reflexivity.
Qed.

(** C1 (as amended).  The port of the normalized host comes from the [port]
    property alone.  A port written inside the [host] string goes away with
    everything after the first colon, so [{host: 'example.com:8080'}]
    normalizes to host [example.com:80], as [{host: 'example.com'}] does;
    a truthy [port] property is kept and ends the host.  Two options objects with the same effective scheme,
    host name and port text have the same canonical key, in particular an
    options object without a port and the same object with the default port
    of its scheme written in the [port] property.
    [{host: 'example.com', proto: 'https'}] gets port 443 and host
    [example.com:443]. *)
Theorem normalize_port_from_port_property :
  host (Common.normalizeRequestOptions host_with_port)
    = Some "example.com:80" /\
  (forall name rest,
     JS.truthy_string name = true -> JS.indexOf ":" name = -1 ->
     host (Common.normalizeRequestOptions
             (set_host (Some (name ++ ":" ++ rest)) no_options))
       = Some (name ++ ":80") /\
     host (Common.normalizeRequestOptions
             (set_host (Some name) no_options))
       = Some (name ++ ":80")) /\
  (forall o p, port o = Some p -> port_truthy (Some p) = true ->
     port (Common.normalizeRequestOptions o) = Some p /\
     host (Common.normalizeRequestOptions o)
       = Some (effective_hostname o ++ ":" ++ port_toString p)) /\
  (forall o1 o2,
     effective_scheme o1 = effective_scheme o2 ->
     effective_hostname o1 = effective_hostname o2 ->
     port_toString (effective_port o1) = port_toString (effective_port o2) ->
     canonical_key o1 = canonical_key o2) /\
  (forall o, port_truthy (port o) = false ->
     canonical_key (set_port (Some (default_port (effective_scheme o))) o)
       = canonical_key o) /\
  port (Common.normalizeRequestOptions host_with_https) = Some (PNum 443) /\
  host (Common.normalizeRequestOptions host_with_https)
    = Some "example.com:443".
Proof.
  split; [reflexivity|].
  split.
  { intros name rest Ht Hi. rewrite !normalize_host.
    unfold effective_hostname.
    cbn [host hostname set_host no_options JS.text JS.truthy_opt or_string].
    rewrite truthy_app_colon, Ht.
    change (name ++ ":" ++ rest) with (name ++ String ":" rest).
    rewrite (before_first_app _ _ _ Hi), (before_first_none _ _ Hi).
    rewrite (or_string_some _ _ Ht). split; reflexivity. }
  split.
  { intros o p Hp Ht.
    rewrite normalize_port, normalize_host.
    unfold effective_port. rewrite Hp, (or_port_keep _ _ Ht). split; reflexivity. }
  split.
  { intros o1 o2 Hs Hh Hp. rewrite !canonical_key_eq, Hs, Hh, Hp. reflexivity. }
  split.
  { intros o Hf. rewrite !canonical_key_eq.
    assert (Hs : effective_scheme
                   (set_port (Some (default_port (effective_scheme o))) o)
                 = effective_scheme o) by reflexivity.
    assert (Hh : effective_hostname
                   (set_port (Some (default_port (effective_scheme o))) o)
                 = effective_hostname o) by reflexivity.
    rewrite Hs, Hh. do 4 f_equal.
    unfold effective_port at 1. rewrite Hs. simpl port.
    rewrite (or_port_keep _ _ (default_port_truthy _)).
    unfold effective_port. rewrite (or_port_default _ _ Hf). reflexivity. }
  split; reflexivity.
Qed.

(** An implicit port and the same port written out give one key. *)
Lemma normalize_port_from_port_property_witness :
  canonical_key host_only = canonical_key host_and_port /\
  canonical_key host_only = "http://example.com:80".
Proof.
  split; [|reflexivity].
  apply (proj1 (proj2 (proj2 (proj2 normalize_port_from_port_property))));
    reflexivity.
Defined.

(** C1, as stated, fails: the port written inside the host is not kept. *)
Lemma embedded_port_not_preserved :
  host (Common.normalizeRequestOptions host_with_port)
    <> Some "example.com:8080".
Proof. discriminate. Qed.

(** C8 (as amended).  [normalizeRequestOptions] is a total function.  A
    second normalization leaves [proto], [port] and [host] (and the
    properties it does not touch) as the first one made them, and leaves
    the whole object unchanged when the first one left a non-empty
    [hostname]; a third normalization changes nothing in any case.  An
    absent or empty [proto] becomes [http]; an absent or falsy [port]
    becomes 80 for http and 443 for https; with neither [hostname] nor
    [host], the host is [localhost] with the port, while the [hostname]
    property itself stays as it was. *)
Theorem normalize_idempotent_on_endpoint :
  (forall o,
     let once := Common.normalizeRequestOptions o in
     let twice := Common.normalizeRequestOptions once in
     proto twice = proto once /\ port twice = port once /\
     host twice = host once /\ _https_ twice = _https_ once /\
     method twice = method once /\ path twice = path once) /\
  (forall o,
     JS.truthy_opt (hostname (Common.normalizeRequestOptions o)) = true ->
     Common.normalizeRequestOptions (Common.normalizeRequestOptions o)
       = Common.normalizeRequestOptions o) /\
  (forall o,
     Common.normalizeRequestOptions
       (Common.normalizeRequestOptions (Common.normalizeRequestOptions o))
       = Common.normalizeRequestOptions (Common.normalizeRequestOptions o)) /\
  (forall o, JS.truthy_opt (proto o) = false ->
     proto (Common.normalizeRequestOptions o) = Some "http") /\
  (forall o, port_truthy (port o) = false ->
     (proto (Common.normalizeRequestOptions o) = Some "http" ->
      port (Common.normalizeRequestOptions o) = Some (PNum 80)) /\
     (proto (Common.normalizeRequestOptions o) = Some "https" ->
      port (Common.normalizeRequestOptions o) = Some (PNum 443))) /\
  (forall o, JS.truthy_opt (hostname o) = false ->
     JS.truthy_opt (host o) = false ->
     host (Common.normalizeRequestOptions o)
       = Some ("localhost:" ++
               port_text (port (Common.normalizeRequestOptions o))) /\
     hostname (Common.normalizeRequestOptions o) = hostname o).
Proof.
  split.
  { intros o once twice.
    destruct (normalize_twice_endpoint o) as (A & B & C).
    destruct (normalize_rest once) as (D & E & F).
    repeat split; assumption. }
  split; [exact normalize_fixed_when_hostname|].
  split; [exact normalize_thrice|].
  split.
  { intros o H. rewrite normalize_proto. unfold effective_scheme.
    rewrite (or_string_default _ _ H). reflexivity. }
  split.
  { intros o H. rewrite normalize_proto, normalize_port.
    unfold effective_port. rewrite (or_port_default _ _ H).
    split; intros E; injection E as E; rewrite E; reflexivity. }
  intros o Hn Hh. rewrite normalize_port, normalize_host, normalize_hostname.
  unfold effective_hostname. rewrite Hh, (or_string_default _ _ Hn).
  split; reflexivity.
Qed.

(** [{host: 'example.com'}] is normalized once and for all. *)
Lemma normalize_idempotent_on_endpoint_witness :
  Common.normalizeRequestOptions (Common.normalizeRequestOptions host_only)
    = Common.normalizeRequestOptions host_only /\
  proto (Common.normalizeRequestOptions no_options) = Some "http" /\
  host (Common.normalizeRequestOptions no_options) = Some "localhost:80".
Proof.
  split.
  - apply (proj1 (proj2 normalize_idempotent_on_endpoint)). reflexivity.
  - split.
    + apply (proj1 (proj2 (proj2 (proj2 normalize_idempotent_on_endpoint)))).
      reflexivity.
    + apply (proj2 (proj2 (proj2 (proj2 (proj2
               normalize_idempotent_on_endpoint)))) no_options);
        reflexivity.
Defined.

(** C8, as stated, fails: the empty options object is normalized to an
    object without [hostname], and normalizing that one adds
    [hostname: 'localhost']. *)
Lemma normalize_not_idempotent :
  Common.normalizeRequestOptions (Common.normalizeRequestOptions no_options)
    <> Common.normalizeRequestOptions no_options.
Proof. discriminate. Qed.

(** ** The scope of a recorded request *)

(** C10.  [getScope] returns the scheme prefix chosen by [_https_] followed
    by the normalized host, and never throws.  The normalized host is
    [hostname:port], so it holds a colon, [indexOf] does not answer -1, and
    the branch that appends [options.port] is never taken: the port in the
    scope is the one normalization put in the host. *)
Theorem getScope_scheme_and_normalized_host (o : Options) :
  let n := Common.normalizeRequestOptions o in
  exists h,
    host n = Some h /\
    h = or_string (hostname n) "localhost" ++ ":" ++ port_text (port n) /\
    JS.indexOf ":" h <> -1 /\
    Recorder.getScope o =
      (n, JS.Ok ((if _https_ o then "https://" else "http://") ++ h)).
Proof.
  cbv zeta.
  exists (effective_hostname o ++ ":" ++ port_toString (effective_port o)).
  assert (Hi : JS.indexOf ":" (effective_hostname o ++ ":" ++
                               port_toString (effective_port o)) <> -1).
  { pose proof (indexOf_found ":" (effective_hostname o)
                  (port_toString (effective_port o))) as H.
    simpl in H |- *. lia. }
  split; [apply normalize_host|].
  split.
  { rewrite <- effective_hostname_normalized, normalize_port. reflexivity. }
  split; [exact Hi|].
  unfold Recorder.getScope. rewrite normalize_host.
  apply Z.eqb_neq in Hi. rewrite Hi. simpl andb. cbv iota.
  destruct (normalize_rest o) as (Hs & _ & _). rewrite Hs.
  destruct (_https_ o); simpl; rewrite append_empty_r; reflexivity.
Qed.

(** ** The registry *)

Lemma find_none_all (f : Intercept.ref -> bool) (l : list Intercept.ref) :
  (forall r, In r l -> f r = false) -> find f l = None.
Proof.
  induction l as [|x l IH]; simpl; intros H; [reflexivity|].
  rewrite (H x (or_introl eq_refl)). apply IH.
  intros r Hr. apply H. right. exact Hr.
Qed.

Lemma find_first (f : Intercept.ref -> bool) (l1 l2 : list Intercept.ref)
    (e : Intercept.ref) :
  (forall r, In r l1 -> f r = false) -> f e = true ->
  find f (l1 ++ e :: l2)%list = Some e.
Proof.
  induction l1 as [|x l1 IH]; simpl; intros H He.
  - rewrite He. reflexivity.
  - rewrite (H x (or_introl eq_refl)). apply IH; [|exact He].
    intros r Hr. apply H. right. exact Hr.
Qed.

Lemma each_key_none (st : Intercept.State) (basePath : string)
    (all : Intercept.Registry) :
  (forall k l r, In (k, l) all -> In r l ->
     Intercept.accepts st basePath r = false) ->
  Intercept.each_key st basePath all = None.
Proof.
  induction all as [|[k g] all IH]; simpl; intros H; [reflexivity|].
  rewrite find_none_all.
  - apply IH. intros k' l r Hin Hr. apply (H k' l r); [right|]; assumption.
  - intros r Hr. apply (H k g r); [left; reflexivity|exact Hr].
Qed.

Lemma each_key_first (st : Intercept.State) (basePath : string)
    (before after : Intercept.Registry) (key : string)
    (l1 l2 : list Intercept.ref) (e : Intercept.ref) :
  (forall k l r, In (k, l) before -> In r l ->
     Intercept.accepts st basePath r = false) ->
  (forall r, In r l1 -> Intercept.accepts st basePath r = false) ->
  Intercept.accepts st basePath e = true ->
  Intercept.each_key st basePath
    (before ++ (key, l1 ++ e :: l2) :: after)%list
    = Some (e, (l1 ++ e :: l2)%list).
Proof.
  intros Hb H1 He.
  induction before as [|[k g] before IH]; simpl.
  - rewrite (find_first _ _ _ _ H1 He). reflexivity.
  - rewrite find_none_all.
    + apply IH. intros k' l r Hin Hr.
      apply (Hb k' l r); [right|]; assumption.
    + intros r Hr. apply (Hb k g r); [left; reflexivity|exact Hr].
Qed.

Lemma update_same (r : Intercept.ref) (i : Intercept.Interceptor)
    (h : Intercept.ref -> Intercept.Interceptor) :
  Intercept.update r i h r = i.
Proof. unfold Intercept.update. rewrite Nat.eqb_refl. reflexivity. Qed.

Lemma update_other (r r' : Intercept.ref) (i : Intercept.Interceptor)
    (h : Intercept.ref -> Intercept.Interceptor) :
  r' <> r -> Intercept.update r i h r' = h r'.
Proof.
  intros H. unfold Intercept.update.
  destruct (Nat.eqb r' r) eqn:E; [|reflexivity].
  apply Nat.eqb_eq in E. contradiction.
Qed.

Lemma find_decompose (f : Intercept.ref -> bool) (l : list Intercept.ref) :
  (forall r, In r l -> f r = false) \/
  (exists l1 e l2,
     l = (l1 ++ e :: l2)%list /\
     (forall r, In r l1 -> f r = false) /\ f e = true).
Proof.
  induction l as [|x l IH].
  - left. intros r [].
  - destruct (f x) eqn:E.
    + right. exists [], x, l. repeat split; [intros r []|exact E].
    + destruct IH as [H|(l1 & e & l2 & -> & H1 & He)].
      * left. intros r [<-|Hr]; [exact E|apply H, Hr].
      * right. exists (x :: l1), e, l2. repeat split; [|exact He].
        intros r [<-|Hr]; [exact E|apply H1, Hr].
Qed.

(** Either no filter of the registry accepts the base path, or there is a
    first scope that does. *)
Lemma first_accepted_or_none (st : Intercept.State) (basePath : string)
    (all : Intercept.Registry) :
  (forall k l r, In (k, l) all -> In r l ->
     Intercept.accepts st basePath r = false) \/
  (exists before key l1 e l2 after,
     all = (before ++ (key, l1 ++ e :: l2) :: after)%list /\
     (forall k l r, In (k, l) before -> In r l ->
        Intercept.accepts st basePath r = false) /\
     (forall r, In r l1 -> Intercept.accepts st basePath r = false) /\
     Intercept.accepts st basePath e = true).
Proof.
  induction all as [|[k g] all IH].
  - left. intros k l r [].
  - destruct (find_decompose (Intercept.accepts st basePath) g)
      as [Hg|(l1 & e & l2 & -> & H1 & He)].
    + destruct IH as [H|(before & key & l1 & e & l2 & after & -> & Hb & H1 & He)].
      * left. intros k' l r [E|Hin] Hr.
        -- injection E as <- <-. apply Hg, Hr.
        -- apply (H k' l r Hin Hr).
      * right. exists ((k, g) :: before), key, l1, e, l2, after.
        repeat split; [|exact H1|exact He].
        intros k' l r [E|Hin] Hr.
        -- injection E as <- <-. apply Hg, Hr.
        -- apply (Hb k' l r Hin Hr).
    + right. exists [], k, l1, e, l2, all.
      repeat split; [|exact H1|exact He].
      intros k' l r [].
Qed.

(** C2.  A lookup scans the registry key by key in insertion order and each
    array from its first element.  If the first expectation whose
    [scopeFiltering] accepts the base path of the request is [e], filed in
    the array [l1 ++ e :: l2], that whole array is returned whatever is
    stored under the requested key, [e] gets [__nock_filteredScope] set to
    its scope key, and nothing else changes.  If no filter accepts the base
    path, the array stored under the key [proto://host] is returned, or the
    empty array when there is none, and nothing changes.  Every lookup is
    in one of the two cases. *)
Theorem interceptorsFor_filter_then_exact_key
    (st : Intercept.State) (o : Options) :
  let n := Intercept.normalizeForRequest o in
  let basePath := Intercept.basePath_of n in
  (forall before key l1 e l2 after,
     Intercept.allInterceptors st
       = (before ++ (key, l1 ++ e :: l2) :: after)%list ->
     (forall k l r, In (k, l) before -> In r l ->
        Intercept.accepts st basePath r = false) ->
     (forall r, In r l1 -> Intercept.accepts st basePath r = false) ->
     Intercept.accepts st basePath e = true ->
     exists st',
       Intercept.interceptorsFor st o = (st', n, (l1 ++ e :: l2)%list) /\
       Intercept.allInterceptors st' = Intercept.allInterceptors st /\
       Intercept.allowNetConnect st' = Intercept.allowNetConnect st /\
       Intercept.objects st' e =
         Intercept.set_filteredScope
           (Some (Intercept.__nock_scopeKey (Intercept.objects st e)))
           (Intercept.objects st e) /\
       (forall r, r <> e ->
          Intercept.objects st' r = Intercept.objects st r)) /\
  ((forall k l r, In (k, l) (Intercept.allInterceptors st) -> In r l ->
      Intercept.accepts st basePath r = false) ->
   Intercept.interceptorsFor st o =
     (st, n,
      match Intercept.get basePath (Intercept.allInterceptors st) with
      | Some l => l
      | None => []
      end)) /\
  ((forall k l r, In (k, l) (Intercept.allInterceptors st) -> In r l ->
      Intercept.accepts st basePath r = false) \/
   (exists before key l1 e l2 after,
      Intercept.allInterceptors st
        = (before ++ (key, l1 ++ e :: l2) :: after)%list /\
      (forall k l r, In (k, l) before -> In r l ->
         Intercept.accepts st basePath r = false) /\
      (forall r, In r l1 -> Intercept.accepts st basePath r = false) /\
      Intercept.accepts st basePath e = true)).
Proof.
  cbv zeta. split; [|split; [|apply first_accepted_or_none]].
  - intros before key l1 e l2 after Hall Hb H1 He.
    unfold Intercept.interceptorsFor.
    rewrite Hall, (each_key_first _ _ _ _ _ _ _ _ Hb H1 He), <- Hall.
    eexists. split; [reflexivity|]. simpl.
    repeat split.
    + apply update_same.
    + intros r Hr. apply update_other, Hr.
  - intros Hnone. unfold Intercept.interceptorsFor.
    rewrite (each_key_none _ _ _ Hnone). reflexivity.
Qed.

(** ** Removal *)

Lemma get_put_same (key : string) (v : list Intercept.ref)
    (all : Intercept.Registry) :
  Intercept.get key (Intercept.put key v all) = Some v.
Proof.
  induction all as [|[k w] all IH]; simpl.
  - rewrite String.eqb_refl. reflexivity.
  - destruct (String.eqb k key) eqn:E; simpl; rewrite E; [reflexivity|].
    exact IH.
Qed.

Lemma get_in (key : string) (all : Intercept.Registry)
    (l : list Intercept.ref) :
  Intercept.get key all = Some l -> In (key, l) all.
Proof.
  induction all as [|[k w] all IH]; simpl; [discriminate|].
  destruct (String.eqb k key) eqn:E.
  - apply String.eqb_eq in E. intros H. injection H as ->. subst k.
    left. reflexivity.
  - intros H. right. apply IH, H.
Qed.

Lemma get_none_put (key : string) (v : list Intercept.ref)
    (all : Intercept.Registry) :
  Intercept.get key all = None ->
  Intercept.put key v all = (all ++ [(key, v)])%list.
Proof.
  induction all as [|[k w] all IH]; simpl; [reflexivity|].
  destruct (String.eqb k key); [discriminate|].
  intros H. rewrite (IH H). reflexivity.
Qed.

Lemma put_keys (key : string) (v : list Intercept.ref)
    (all : Intercept.Registry) (l : list Intercept.ref) :
  Intercept.get key all = Some l ->
  map fst (Intercept.put key v all) = map fst all.
Proof.
  induction all as [|[k w] all IH]; simpl; [discriminate|].
  destruct (String.eqb k key); simpl; [reflexivity|].
  intros H. rewrite (IH H). reflexivity.
Qed.

(** With unique keys, an assignment changes the array of one key only. *)
Lemma in_put (key : string) (v : list Intercept.ref)
    (all : Intercept.Registry) (k : string) (g : list Intercept.ref) :
  unique_keys all ->
  In (k, g) (Intercept.put key v all) ->
  (k = key /\ g = v) \/ (k <> key /\ In (k, g) all).
Proof.
  unfold unique_keys.
  induction all as [|[k0 w] all IH]; simpl; intros Hu Hin.
  - destruct Hin as [H|[]]. injection H as <- <-. left. split; reflexivity.
  - inversion Hu as [|? ? Hnot Hu']; subst.
    destruct (String.eqb k0 key) eqn:E.
    + apply String.eqb_eq in E. subst k0.
      destruct Hin as [H|H].
      * injection H as <- <-. left. split; reflexivity.
      * right. split; [|right; exact H].
        intros ->. apply Hnot. apply (in_map fst) in H. exact H.
    + apply String.eqb_neq in E.
      destruct Hin as [H|H].
      * injection H as <- <-. right. split; [exact E|left; reflexivity].
      * destruct (IH Hu' H) as [L|[Hk R]]; [left; exact L|].
        right. split; [exact Hk|right; exact R].
Qed.

Lemma count_occ_splice_first (e : Intercept.ref) (l : list Intercept.ref) :
  count_occ Nat.eq_dec (Intercept.splice_first e l) e
    = Nat.pred (count_occ Nat.eq_dec l e).
Proof.
  induction l as [|x l IH]; simpl; [reflexivity|].
  destruct (Nat.eqb x e) eqn:E.
  - apply Nat.eqb_eq in E. subst x.
    destruct (Nat.eq_dec e e) as [_|N]; [reflexivity|contradiction].
  - apply Nat.eqb_neq in E. simpl.
    destruct (Nat.eq_dec x e) as [Y|_]; [contradiction|]. exact IH.
Qed.

Lemma splice_first_removes (e : Intercept.ref) (l : list Intercept.ref) :
  count_occ Nat.eq_dec l e = 1%nat -> ~ In e (Intercept.splice_first e l).
Proof.
  intros H. apply (count_occ_not_In Nat.eq_dec).
  rewrite count_occ_splice_first, H. reflexivity.
Qed.

Lemma each_key_in (st : Intercept.State) (basePath : string)
    (all : Intercept.Registry) (r : Intercept.ref)
    (g : list Intercept.ref) :
  Intercept.each_key st basePath all = Some (r, g) ->
  exists k, In (k, g) all.
Proof.
  induction all as [|[k w] all IH]; simpl; [discriminate|].
  destruct (find (Intercept.accepts st basePath) w).
  - intros H. injection H as _ <-. exists k. left. reflexivity.
  - intros H. destruct (IH H) as [k' Hk']. exists k'. right. exact Hk'.
Qed.

(** A lookup returns one of the registered arrays, or the empty array. *)
Lemma found_registered (st : Intercept.State) (o : Options) :
  found st o = [] \/ exists k, In (k, found st o) (Intercept.allInterceptors st).
Proof.
  unfold found, Intercept.interceptorsFor.
  destruct (Intercept.each_key st _ (Intercept.allInterceptors st))
    as [[r g]|] eqn:E; simpl.
  - right. apply (each_key_in _ _ _ _ _ E).
  - destruct (Intercept.get _ (Intercept.allInterceptors st)) as [l|] eqn:G.
    + right. eexists. apply (get_in _ _ _ G).
    + left. reflexivity.
Qed.

Lemma get_none_keys (key : string) (all : Intercept.Registry) :
  Intercept.get key all = None -> ~ In key (map fst all).
Proof.
  induction all as [|[k w] all IH]; simpl; intros H; [intros []|].
  destruct (String.eqb k key) eqn:E; [discriminate|].
  apply String.eqb_neq in E. intros [F|F]; [contradiction|].
  apply (IH H F).
Qed.

Lemma put_new_unique (key : string) (v : list Intercept.ref)
    (all : Intercept.Registry) :
  Intercept.get key all = None -> unique_keys all ->
  unique_keys (Intercept.put key v all).
Proof.
  intros Hnone Hu. unfold unique_keys in *.
  rewrite (get_none_put _ _ _ Hnone), map_app. simpl.
  apply NoDup_app_remove_l with (l := []). simpl.
  apply (Permutation.Permutation_NoDup
           (l := key :: map fst all)).
  - apply Permutation.Permutation_cons_append.
  - constructor; [apply get_none_keys, Hnone|exact Hu].
Qed.

Lemma count_occ_pushed (e : nat) (g : list nat) :
  ~ In e g -> count_occ Nat.eq_dec (g ++ [e]) e = 1%nat.
Proof.
  intros H. apply (count_occ_not_In Nat.eq_dec) in H.
  rewrite count_occ_app, H. simpl.
  destruct (Nat.eq_dec e e) as [_|N]; [reflexivity|contradiction].
Qed.

(** [add] keeps the keys of the registry unique. *)
Lemma add_unique_keys (key : string) (e : Intercept.ref)
    (scope : Intercept.Scope) (scopeOptions : Intercept.ScopeOptions)
    (st : Intercept.State) :
  unique_keys (Intercept.allInterceptors st) ->
  unique_keys (Intercept.allInterceptors
                 (Intercept.add key e scope scopeOptions st)).
Proof.
  intros Hu. unfold Intercept.add. simpl.
  destruct (Intercept.get key (Intercept.allInterceptors st)) as [g|] eqn:G.
  - rewrite G. unfold unique_keys. rewrite (put_keys _ _ _ _ G). exact Hu.
  - rewrite get_put_same. unfold unique_keys.
    rewrite (put_keys _ _ _ _ (get_put_same key [] _)).
    apply (put_new_unique _ _ _ G Hu).
Qed.

(** [add] of an interceptor that no array holds files it once. *)
Lemma add_files_once (key : string) (e : Intercept.ref)
    (scope : Intercept.Scope) (scopeOptions : Intercept.ScopeOptions)
    (st : Intercept.State) :
  unique_keys (Intercept.allInterceptors st) ->
  (forall k g, In (k, g) (Intercept.allInterceptors st) -> ~ In e g) ->
  filed_once
    (Intercept.allInterceptors (Intercept.add key e scope scopeOptions st))
    key e.
Proof.
  intros Hu Hfresh. unfold Intercept.add. simpl.
  destruct (Intercept.get key (Intercept.allInterceptors st)) as [g|] eqn:G.
  - rewrite G. exists (g ++ [e])%list.
    split; [apply get_put_same|]. split.
    + apply count_occ_pushed. apply (Hfresh key g), get_in, G.
    + intros k g' Hin Hk.
      destruct (in_put _ _ _ _ _ Hu Hin) as [[-> _]|[_ R]]; [contradiction|].
      apply (Hfresh k g' R).
  - rewrite get_put_same. exists [e]. split; [apply get_put_same|]. split.
    + apply (count_occ_pushed e []). intros [].
    + intros k g' Hin Hk.
      destruct (in_put _ _ _ _ _ (put_new_unique key [] _ G Hu) Hin)
        as [[-> _]|[_ R]]; [contradiction|].
      destruct (in_put _ _ _ _ _ Hu R) as [[-> _]|[_ R']]; [contradiction|].
      apply (Hfresh k g' R').
Qed.

Lemma get_put_other (key k : string) (v : list Intercept.ref)
    (all : Intercept.Registry) :
  k <> key -> Intercept.get k (Intercept.put key v all) = Intercept.get k all.
Proof.
  intros Hk. induction all as [|[k0 w] all IH]; simpl.
  - destruct (String.eqb key k) eqn:E; [|reflexivity].
    apply String.eqb_eq in E. congruence.
  - destruct (String.eqb k0 key) eqn:E; simpl.
    + apply String.eqb_eq in E. subst k0.
      destruct (String.eqb key k) eqn:E'; [|reflexivity].
      apply String.eqb_eq in E'. congruence.
    + rewrite IH. reflexivity.
Qed.

Lemma filter_splice_first (e : nat) (l : list nat) :
  filter (fun r => negb (Nat.eqb r e)) (Intercept.splice_first e l)
  = filter (fun r => negb (Nat.eqb r e)) l.
Proof.
  induction l as [|x l IH]; simpl; [reflexivity|].
  destruct (Nat.eqb x e) eqn:E; simpl; [reflexivity|].
  rewrite E, IH. reflexivity.
Qed.

Lemma filter_absent (e : nat) (l : list nat) :
  ~ In e l -> filter (fun r => negb (Nat.eqb r e)) l = l.
Proof.
  induction l as [|x l IH]; simpl; intros H; [reflexivity|].
  destruct (Nat.eqb x e) eqn:E.
  - apply Nat.eqb_eq in E. exfalso. apply H. left. exact E.
  - simpl. rewrite IH; [reflexivity|]. intros F. apply H. right. exact F.
Qed.

(** Spliced out of an array that holds it once, the interceptor leaves the
    others behind, in their order. *)
Lemma splice_first_keeps_others (e : nat) (l : list nat) :
  count_occ Nat.eq_dec l e = 1%nat ->
  Intercept.splice_first e l = filter (fun r => negb (Nat.eqb r e)) l.
Proof.
  intros H. rewrite <- (filter_splice_first e l). symmetry.
  apply filter_absent. apply (count_occ_not_In Nat.eq_dec).
  rewrite count_occ_splice_first, H. reflexivity.
Qed.

Lemma remove_times_persistent (parse : string -> Url.t) (n : nat)
    (e : Intercept.ref) (st : Intercept.State) :
  Intercept.shouldPersist
    (Intercept.__nock_scope (Intercept.objects st e)) = true ->
  remove_times parse n e st = JS.Ok st.
Proof.
  intros H. induction n as [|n IH]; simpl; [reflexivity|].
  unfold Intercept.remove. rewrite H. exact IH.
Qed.

(** C3.  [remove(E)] on an interceptor of a persistent scope returns with
    the state as it was, however often it is called.  On a non-persistent
    one with a counter above 1 it only takes one off the counter of [E]:
    the registry is as before, so [E] is still filed.  With the counter at
    1 it takes [E] out of the array filed under the endpoint key of [E]
    (scheme and host of the URL in its [_key]): when that is where [E] is
    filed, once, no array of the registry holds [E] afterwards and no
    lookup returns it.  Nothing else goes: the array of that key holds the
    other interceptors it held, in their order (a persistent one among
    them too), the arrays of the other keys, the keys themselves, the
    policy and all interceptor objects are as they were. *)
Theorem remove_lifecycle (parse : string -> Url.t)
    (st : Intercept.State) (e : Intercept.ref) :
  let o := Intercept.objects st e in
  (Intercept.shouldPersist (Intercept.__nock_scope o) = true ->
     Intercept.remove parse e st = JS.Ok st /\
     forall n, remove_times parse n e st = JS.Ok st) /\
  (Intercept.shouldPersist (Intercept.__nock_scope o) = false ->
   1 < Intercept.counter o ->
     exists st',
       Intercept.remove parse e st = JS.Ok st' /\
       Intercept.allInterceptors st' = Intercept.allInterceptors st /\
       Intercept.allowNetConnect st' = Intercept.allowNetConnect st /\
       Intercept.objects st' e
         = Intercept.set_counter (Intercept.counter o - 1) o /\
       (forall r, r <> e ->
          Intercept.objects st' r = Intercept.objects st r)) /\
  (Intercept.shouldPersist (Intercept.__nock_scope o) = false ->
   Intercept.counter o = 1 ->
   forall url hostKey,
     nth_error (JS.split " " (Intercept._key o)) 1 = Some url ->
     hostKey = Url.text (Url.protocol (parse url)) ++ "//" ++
               Url.text (Url.host (parse url)) ->
     unique_keys (Intercept.allInterceptors st) ->
     filed_once (Intercept.allInterceptors st) hostKey e ->
     exists st' l,
       Intercept.remove parse e st = JS.Ok st' /\
       Intercept.get hostKey (Intercept.allInterceptors st') = Some l /\
       ~ In e l /\
       (forall k g, In (k, g) (Intercept.allInterceptors st') -> ~ In e g) /\
       (forall options, ~ In e (found st' options)) /\
       Intercept.objects st' = Intercept.objects st /\
       (exists l0,
          Intercept.get hostKey (Intercept.allInterceptors st) = Some l0 /\
          l = filter (fun r => negb (Nat.eqb r e)) l0) /\
       (forall k, k <> hostKey ->
          Intercept.get k (Intercept.allInterceptors st')
            = Intercept.get k (Intercept.allInterceptors st)) /\
       map fst (Intercept.allInterceptors st')
         = map fst (Intercept.allInterceptors st) /\
       Intercept.allowNetConnect st' = Intercept.allowNetConnect st).
Proof.
  cbv zeta. split; [|split].
  - intros Hp. split.
    + unfold Intercept.remove. rewrite Hp. reflexivity.
    + intros n. apply remove_times_persistent, Hp.
  - intros Hp Hc. unfold Intercept.remove. rewrite Hp.
    assert (G : (Intercept.counter (Intercept.objects st e) >? 1) = true)
      by (apply Z.gtb_lt; exact Hc).
    rewrite G. eexists. split; [reflexivity|]. simpl.
    repeat split.
    + apply update_same.
    + intros r Hr. apply update_other, Hr.
  - intros Hp Hc url hostKey Hurl -> Hu (l & Hget & Hcount & Hother).
    unfold Intercept.remove. rewrite Hp, Hc. simpl (1 >? 1).
    cbv iota. rewrite Hurl, Hget.
    set (hostKey := Url.text (Url.protocol (parse url)) ++ "//" ++
                    Url.text (Url.host (parse url))) in *.
    set (st' := Intercept.mkState
                  (Intercept.put hostKey (Intercept.splice_first e l)
                     (Intercept.allInterceptors st))
                  (Intercept.allowNetConnect st) (Intercept.objects st)).
    assert (Hgroups : forall k g,
               In (k, g) (Intercept.allInterceptors st') -> ~ In e g).
    { intros k g Hin. destruct (in_put _ _ _ _ _ Hu Hin) as [[_ ->]|[Hk R]].
      - apply splice_first_removes, Hcount.
      - apply (Hother k g R Hk). }
    exists st', (Intercept.splice_first e l).
    split; [reflexivity|].
    split; [apply get_put_same|].
    split; [apply splice_first_removes, Hcount|].
    split; [exact Hgroups|].
    split.
    { intros options Hin.
      destruct (found_registered st' options) as [E|[k Hk]].
      + rewrite E in Hin. destruct Hin.
      + apply (Hgroups k _ Hk Hin). }
    split; [reflexivity|].
    split.
    { exists l. split; [reflexivity|].
      apply splice_first_keeps_others, Hcount. }
    split; [intros k Hk; apply get_put_other, Hk|].
    split; [apply (put_keys _ _ _ _ Hget)|reflexivity].
Qed.

(** ** Lookups and the store *)

Lemma set_filteredScope_self (i : Intercept.Interceptor) :
  Intercept.set_filteredScope (Intercept.__nock_filteredScope i) i = i.
Proof. destruct i. reflexivity. Qed.

Lemma same_but_marks_refl (h : Intercept.ref -> Intercept.Interceptor) :
  same_but_marks h h.
Proof. intros r. eexists. symmetry. apply set_filteredScope_self. Qed.

Lemma same_but_marks_update (h : Intercept.ref -> Intercept.Interceptor)
    (e : Intercept.ref) (v : option string) :
  same_but_marks h (Intercept.update e (Intercept.set_filteredScope v (h e)) h).
Proof.
  intros r. destruct (Nat.eq_dec r e) as [->|N].
  - exists v. apply update_same.
  - exists (Intercept.__nock_filteredScope (h r)).
    rewrite (update_other _ _ _ _ N). symmetry. apply set_filteredScope_self.
Qed.

Lemma find_same (f g : Intercept.ref -> bool) (l : list Intercept.ref) :
  (forall r, f r = g r) -> find f l = find g l.
Proof.
  intros H. induction l as [|x l IH]; simpl; [reflexivity|].
  rewrite H, IH. reflexivity.
Qed.

Lemma accepts_same (st1 st2 : Intercept.State) (basePath : string)
    (r : Intercept.ref) :
  same_but_marks (Intercept.objects st1) (Intercept.objects st2) ->
  Intercept.accepts st2 basePath r = Intercept.accepts st1 basePath r.
Proof.
  intros H. unfold Intercept.accepts. destruct (H r) as [v ->]. reflexivity.
Qed.

Lemma each_key_same (st1 st2 : Intercept.State) (basePath : string)
    (all : Intercept.Registry) :
  same_but_marks (Intercept.objects st1) (Intercept.objects st2) ->
  Intercept.each_key st2 basePath all = Intercept.each_key st1 basePath all.
Proof.
  intros H. induction all as [|[k g] all IH]; simpl; [reflexivity|].
  rewrite (find_same _ (Intercept.accepts st1 basePath)).
  - rewrite IH. reflexivity.
  - intros r. apply accepts_same, H.
Qed.

(** What a lookup leaves: the normalized options, the registry and the
    policy as they were, the store up to one mark. *)
Lemma interceptorsFor_shape (st : Intercept.State) (o : Options) :
  exists st',
    Intercept.interceptorsFor st o
      = (st', Intercept.normalizeForRequest o, found st o) /\
    Intercept.allInterceptors st' = Intercept.allInterceptors st /\
    Intercept.allowNetConnect st' = Intercept.allowNetConnect st /\
    same_but_marks (Intercept.objects st) (Intercept.objects st').
Proof.
  unfold found, Intercept.interceptorsFor.
  destruct (Intercept.each_key st _ (Intercept.allInterceptors st))
    as [[r g]|]; eexists; (split; [reflexivity|]); simpl;
    repeat split.
  - apply same_but_marks_update.
  - apply same_but_marks_refl.
Qed.

(** A lookup depends on the registry, on the filters and on the base path
    of the request, and on nothing else. *)
Lemma found_same (st1 st2 : Intercept.State) (o1 o2 : Options) :
  Intercept.allInterceptors st2 = Intercept.allInterceptors st1 ->
  same_but_marks (Intercept.objects st1) (Intercept.objects st2) ->
  Intercept.basePath_of (Intercept.normalizeForRequest o2)
    = Intercept.basePath_of (Intercept.normalizeForRequest o1) ->
  found st2 o2 = found st1 o1.
Proof.
  intros Hall Hobj Hbase. unfold found, Intercept.interceptorsFor.
  rewrite Hbase, Hall, (each_key_same st1 st2 _ _ Hobj).
  destruct (Intercept.each_key st1 _ (Intercept.allInterceptors st1))
    as [[r g]|]; reflexivity.
Qed.

Lemma basePath_renormalized (o : Options) :
  Intercept.basePath_of
    (Intercept.normalizeForRequest (Intercept.normalizeForRequest o))
  = Intercept.basePath_of (Intercept.normalizeForRequest o).
Proof.
  change Intercept.normalizeForRequest with Common.normalizeRequestOptions.
  unfold Intercept.basePath_of.
  destruct (normalize_twice_endpoint o) as (Hp & _ & Hh).
  rewrite Hp, Hh. reflexivity.
Qed.

Lemma length_test (l : list Intercept.ref) :
  (0 <? Z.of_nat (length l)) = negb (match l with [] => true | _ => false end).
Proof. destruct l; reflexivity. Qed.

(** The [forEach] loop computes two disjunctions over the candidates. *)
Lemma inspect_all (st : Intercept.State) (options : Options)
    (l : list Intercept.ref) (m a : bool) :
  fold_left (Intercept.inspect st options) l (m, a)
  = (m || some_match st options l, a || some_allowUnmocked st l).
Proof.
  revert m a. induction l as [|x l IH]; intros m a; simpl.
  - rewrite !orb_false_r. reflexivity.
  - rewrite IH. f_equal.
    + destruct (Intercept.matchIndependentOfBody _ options), m; reflexivity.
    + destruct a, (Intercept.allowUnmocked _); reflexivity.
Qed.

Lemma some_match_same (st1 st2 : Intercept.State) (options : Options)
    (l : list Intercept.ref) :
  same_but_marks (Intercept.objects st1) (Intercept.objects st2) ->
  some_match st2 options l = some_match st1 options l.
Proof.
  intros H. unfold some_match. induction l as [|x l IH]; simpl; [reflexivity|].
  rewrite IH. destruct (H x) as [v ->]. reflexivity.
Qed.

Lemma some_allowUnmocked_same (st1 st2 : Intercept.State)
    (l : list Intercept.ref) :
  same_but_marks (Intercept.objects st1) (Intercept.objects st2) ->
  some_allowUnmocked st2 l = some_allowUnmocked st1 l.
Proof.
  intros H. unfold some_allowUnmocked.
  induction l as [|x l IH]; simpl; [reflexivity|].
  rewrite IH. destruct (H x) as [v ->]. reflexivity.
Qed.

(** ** The overriding request *)

(** The request object built after a successful lookup carries the
    overrider of the same interceptors: its own lookup finds them again. *)
Lemma OverridenClientRequest_again (st st1 : Intercept.State) (o : Options) :
  Intercept.allInterceptors st1 = Intercept.allInterceptors st ->
  same_but_marks (Intercept.objects st) (Intercept.objects st1) ->
  found st o <> [] ->
  exists st2,
    Intercept.OverridenClientRequest st1 (Intercept.normalizeForRequest o)
    = (st2,
       Intercept.normalizeForRequest (Intercept.normalizeForRequest o),
       Intercept.WithOverrider (found st o)).
Proof.
  intros Hall Hobj Hne. unfold Intercept.OverridenClientRequest.
  destruct (interceptorsFor_shape st1 (Intercept.normalizeForRequest o))
    as (st2 & -> & _).
  rewrite (found_same st st1 o (Intercept.normalizeForRequest o) Hall Hobj
             (basePath_renormalized o)).
  rewrite length_test. destruct (found st o); [contradiction|].
  exists st2. reflexivity.
Qed.

(** The overriding [request], case by case. *)
Lemma request_cases (parse : string -> Url.t) (env : Intercept.Env)
    (proto : Intercept.Proto) (st : Intercept.State) (arg : string + Options) :
  let options := request_options parse proto arg in
  let n := Intercept.normalizeForRequest options in
  let l := found st options in
  exists st1,
    Intercept.allInterceptors st1 = Intercept.allInterceptors st /\
    Intercept.allowNetConnect st1 = Intercept.allowNetConnect st /\
    same_but_marks (Intercept.objects st) (Intercept.objects st1) /\
    Intercept.request parse env proto st arg =
      if Intercept.isOn env && (0 <? Z.of_nat (length l)) then
        if negb (some_match st n l) && some_allowUnmocked st l then
          Intercept.mkCall st1 n l (JS.Ok Intercept.OldRequest)
        else
          let '(st2, o2, req) := Intercept.OverridenClientRequest st1 n in
          Intercept.mkCall st2 o2 l (JS.Ok (Intercept.Overridden req l))
      else if Intercept.isOff env then
        Intercept.mkCall st1 n [] (JS.Ok Intercept.OldRequest)
      else
        let '(o2, enabled) := Intercept.isEnabledForNetConnect st1 n in
        if enabled then Intercept.mkCall st1 o2 [] (JS.Ok Intercept.OldRequest)
        else Intercept.mkCall st1 o2 []
               (JS.Throw (Intercept.NetConnectNotAllowedError
                            (JS.text (host o2)))).
Proof.
  cbv zeta.
  destruct (interceptorsFor_shape st (request_options parse proto arg))
    as (st1 & Hlook & Hall & Hallow & Hobj).
  exists st1. repeat split; try assumption.
  unfold Intercept.request. fold (request_options parse proto arg).
  rewrite Hlook, inspect_all. simpl orb.
  rewrite (some_match_same st st1 _ _ Hobj),
    (some_allowUnmocked_same st st1 _ Hobj).
  reflexivity.
Qed.

(** C4 (as amended).  While interception is on ([NOCK_OFF] is not [true])
    and the lookup for a request finds no interceptor (nothing is stored
    under its key and no scope filter accepts its base path), the request
    after [disableNetConnect()] throws [NetConnectNotAllowedError] with the
    normalized host between quotes in its message, and the request after
    [enableNetConnect()] without argument returns what the original
    [request] of the module returns. *)
Theorem net_connect_policy_without_interceptors
    (parse : string -> Url.t) (RegExp : string -> JS.result (string -> bool))
    (env : Intercept.Env) (proto : Intercept.Proto) (st : Intercept.State)
    (arg : string + Options) :
  let options := request_options parse proto arg in
  Intercept.isOff env = false ->
  found st options = [] ->
  (exists h,
     host (Intercept.normalizeForRequest options) = Some h /\
     Intercept.outcome
       (Intercept.request parse env proto (Intercept.disableNetConnect st) arg)
     = JS.Throw
         (JS.mkError "NetConnectNotAllowedError"
            ("Nock: Not allow net connect for "
               ++ JS.dquote ++ h ++ JS.dquote))) /\
  (exists st',
     Intercept.enableNetConnect RegExp Intercept.MNone st = JS.Ok st' /\
     Intercept.outcome (Intercept.request parse env proto st' arg)
     = JS.Ok Intercept.OldRequest).
Proof.
  cbv zeta. intros Hoff Hnone. split.
  - destruct (request_cases parse env proto (Intercept.disableNetConnect st)
                arg) as (st1 & _ & Hallow & _ & ->).
    rewrite (found_same st (Intercept.disableNetConnect st) _ _ eq_refl
               (same_but_marks_refl _) eq_refl), Hnone.
    rewrite andb_false_r, Hoff.
    unfold Intercept.isEnabledForNetConnect. rewrite Hallow.
    cbn [Intercept.allowNetConnect Intercept.disableNetConnect
         Intercept.outcome].
    change Intercept.normalizeForRequest with Common.normalizeRequestOptions.
    destruct (normalize_twice_endpoint (request_options parse proto arg))
      as (_ & _ & Hh).
    rewrite Hh, normalize_host. eexists. split; reflexivity.
  - eexists. split; [reflexivity|].
    match goal with
    | |- context [Intercept.request _ _ _ ?s _] =>
        destruct (request_cases parse env proto s arg)
          as (st1 & _ & Hallow & _ & ->);
        rewrite (found_same st s _ _ eq_refl (same_but_marks_refl _) eq_refl)
    end.
    rewrite Hnone, andb_false_r, Hoff.
    unfold Intercept.isEnabledForNetConnect. rewrite Hallow. reflexivity.
Qed.



(** C6.  With interception on and a non-empty list of candidates, the
    request returns what the original [request] returns when no candidate
    matches independently of the body and some candidate has
    [allowUnmocked] set; otherwise it returns the overridden request, built
    with the overrider of the candidates.  In both cases
    [matchIndependentOfBody] has been called on every candidate. *)
Theorem allowUnmocked_falls_through
    (parse : string -> Url.t) (env : Intercept.Env) (proto : Intercept.Proto)
    (st : Intercept.State) (arg : string + Options) :
  let options := request_options parse proto arg in
  let n := Intercept.normalizeForRequest options in
  let candidates := found st options in
  Intercept.isOn env = true ->
  candidates <> [] ->
  (some_match st n candidates = false ->
   some_allowUnmocked st candidates = true ->
   Intercept.outcome (Intercept.request parse env proto st arg)
     = JS.Ok Intercept.OldRequest) /\
  (some_match st n candidates = true \/
   some_allowUnmocked st candidates = false ->
   Intercept.outcome (Intercept.request parse env proto st arg)
     = JS.Ok (Intercept.Overridden (Intercept.WithOverrider candidates)
                candidates)) /\
  Intercept.match_calls (Intercept.request parse env proto st arg)
    = candidates.
Proof.
  cbv zeta. intros Hon Hne.
  destruct (request_cases parse env proto st arg)
    as (st1 & Hall & _ & Hobj & ->).
  destruct (OverridenClientRequest_again st st1 _ Hall Hobj Hne)
    as (st2 & ->).
  rewrite Hon, length_test.
  destruct (found st (request_options parse proto arg)) as [|c cs] eqn:E;
    [contradiction|].
  simpl negb at 1. simpl andb at 1. cbv iota.
  split; [|split].
  - intros Hm Ha. rewrite Hm, Ha. reflexivity.
  - intros [Hm|Ha]; [rewrite Hm|rewrite Ha, andb_false_r]; reflexivity.
  - destruct (negb _ && _); reflexivity.
Qed.

(** ** The recorder *)

(** C7.  [getBodyFromChunks] always returns, with one of three values
    decided in this order: the hex string of the merged buffer when the
    binary test succeeds on it; otherwise the value built by [JSON.parse]
    from the decoded text when the parse succeeds; otherwise the decoded
    text itself, the exception of the parser being caught. *)
Theorem getBodyFromChunks_classifies
    (Json : Type)
    (mergeChunks : list (list Byte.byte) -> list Byte.byte)
    (isBinaryBuffer : list Byte.byte -> bool)
    (toString_utf8 : list Byte.byte -> string)
    (JSON_parse : string -> JS.result Json)
    (chunks : list (list Byte.byte)) :
  let buffer := mergeChunks chunks in
  let text := toString_utf8 buffer in
  let body :=
    Recorder.getBodyFromChunks Json mergeChunks isBinaryBuffer toString_utf8
      JSON_parse chunks in
  (isBinaryBuffer buffer = true ->
     body = Recorder.Str (Recorder.toString_hex buffer)) /\
  (isBinaryBuffer buffer = false ->
     forall value, JSON_parse text = JS.Ok value ->
     body = Recorder.Parsed value) /\
  (isBinaryBuffer buffer = false ->
     forall err, JSON_parse text = JS.Throw err ->
     body = Recorder.Str text) /\
  (body = Recorder.Str (Recorder.toString_hex buffer) \/
   (exists value, body = Recorder.Parsed value) \/
   body = Recorder.Str text).
Proof.
  cbv zeta. unfold Recorder.getBodyFromChunks.
  destruct (isBinaryBuffer (mergeChunks chunks)).
  - repeat split; try discriminate; auto.
  - destruct (JSON_parse (toString_utf8 (mergeChunks chunks))) as [v|e].
    + repeat split; try discriminate.
      * intros _ value H. injection H as <-. reflexivity.
      * right. left. exists v. reflexivity.
    + repeat split; try discriminate; auto.
Qed.

(** A binary, a JSON and a plain payload, each in two chunks. *)
Lemma getBodyFromChunks_classifies_witness :
  Recorder.getBodyFromChunks string Sample.mergeChunks Sample.isBinaryBuffer
    Sample.toString_utf8 Sample.JSON_parse Sample.binary_chunks
    = Recorder.Str "deadbeef" /\
  Recorder.getBodyFromChunks string Sample.mergeChunks Sample.isBinaryBuffer
    Sample.toString_utf8 Sample.JSON_parse Sample.json_chunks
    = Recorder.Parsed "{a:1}" /\
  Recorder.getBodyFromChunks string Sample.mergeChunks Sample.isBinaryBuffer
    Sample.toString_utf8 Sample.JSON_parse Sample.text_chunks
    = Recorder.Str "plain text".
Proof.
  split; [|split].
  - exact (proj1 (getBodyFromChunks_classifies string Sample.mergeChunks
                    Sample.isBinaryBuffer Sample.toString_utf8
                    Sample.JSON_parse Sample.binary_chunks) eq_refl).
  - exact (proj1 (proj2 (getBodyFromChunks_classifies string
                           Sample.mergeChunks Sample.isBinaryBuffer
                           Sample.toString_utf8 Sample.JSON_parse
                           Sample.json_chunks)) eq_refl "{a:1}" eq_refl).
  - exact (proj1 (proj2 (proj2 (getBodyFromChunks_classifies string
                                  Sample.mergeChunks Sample.isBinaryBuffer
                                  Sample.toString_utf8 Sample.JSON_parse
                                  Sample.text_chunks)))
             eq_refl (JS.mkError "SyntaxError" "Unexpected token") eq_refl).
Defined.

(** C9.  [record] throws exactly when a recording is in progress.  When it
    returns, a recording is in progress, so that another [record] throws.
    [restore] ends the recording, and the [record] after it returns. *)
Theorem record_once_until_restore
    (Modules Output : Type)
    (restoreOverriddenRequests restoreOverriddenClientRequest
       : Modules -> Modules)
    (overrideRequests : Recorder.Callback -> Modules -> Modules)
    (rec_options : Recorder.RecOptions)
    (st : Recorder.State Modules Output) :
  let record :=
    Recorder.record Modules Output restoreOverriddenRequests
      restoreOverriddenClientRequest overrideRequests in
  let restore :=
    Recorder.restore Modules Output restoreOverriddenRequests
      restoreOverriddenClientRequest in
  ((exists err, record rec_options st = JS.Throw err) <->
   Recorder.recordingInProgress st = true) /\
  (forall st', record rec_options st = JS.Ok st' ->
     Recorder.recordingInProgress st' = true /\
     forall again, exists err, record again st' = JS.Throw err) /\
  Recorder.recordingInProgress (restore st) = false /\
  (forall next, exists st', record next (restore st) = JS.Ok st').
Proof.
  cbv zeta. unfold Recorder.record, Recorder.restore.
  split; [|split; [|split]].
  - destruct (Recorder.recordingInProgress st); split.
    + reflexivity.
    + intros _. eexists. reflexivity.
    + intros [err H]. discriminate.
    + discriminate.
  - destruct (Recorder.recordingInProgress st); [discriminate|].
    intros st' H. injection H as <-. simpl. split; [reflexivity|].
    intros again. eexists. reflexivity.
  - reflexivity.
  - intros next. simpl. eexists. reflexivity.
Qed.

(** Two calls of [record] in a row, and one after [restore]. *)
Lemma record_once_until_restore_witness :
  (exists st',
     Sample.record Recorder.RUndefined Sample.idle = JS.Ok st' /\
     exists err, Sample.record (Recorder.RBoolean true) st' = JS.Throw err) /\
  (exists st', Sample.record Recorder.RUndefined (Sample.restore Sample.idle)
               = JS.Ok st').
Proof.
  split.
  - eexists. split; [reflexivity|].
    apply (proj1 (proj2 (record_once_until_restore (list string) string
                           Sample.restoreOverriddenRequests
                           Sample.restoreOverriddenClientRequest
                           Sample.overrideRequests Recorder.RUndefined
                           Sample.idle)) _ eq_refl).
  - apply (proj2 (proj2 (proj2 (record_once_until_restore (list string) string
                           Sample.restoreOverriddenRequests
                           Sample.restoreOverriddenClientRequest
                           Sample.overrideRequests Recorder.RUndefined
                           Sample.idle)))).
Defined.

(** ** The samples *)

Lemma sample_keys_unique :
  unique_keys (Intercept.allInterceptors Sample.registered).
Proof.
  unfold unique_keys. simpl.
  repeat constructor; simpl; intuition discriminate.
Qed.

Lemma sample_api_groups (k : string) (l : list Intercept.ref)
    (r : Intercept.ref) (basePath : string) :
  In (k, l) [("http://api.test:80", [0; 1; 2]%nat)] -> In r l ->
  Intercept.accepts Sample.registered basePath r = false.
Proof.
  intros [H|[]] Hr. injection H as <- <-.
  destruct Hr as [<-|[<-|[<-|[]]]]; reflexivity.
Qed.

(** A request to a [cdn.] host gets the whole array of the filtering scope,
    a request to [api.test] the array of its own key. *)
Lemma interceptorsFor_filter_then_exact_key_witness :
  found Sample.registered Sample.to_cdn = [3; 4]%nat /\
  found Sample.registered Sample.to_api = [0; 1; 2]%nat.
Proof.
  split.
  - destruct (proj1 (interceptorsFor_filter_then_exact_key Sample.registered
                       Sample.to_cdn)
                [("http://api.test:80", [0; 1; 2]%nat)]
                "http://files.test:80" [3%nat] 4%nat [] [] eq_refl)
      as (st' & H & _).
    + intros k l r Hin Hr. apply (sample_api_groups k l r _ Hin Hr).
    + intros r [<-|[]]. reflexivity.
    + reflexivity.
    + unfold found. rewrite H. reflexivity.
  - unfold found.
    rewrite (proj1 (proj2 (interceptorsFor_filter_then_exact_key
                             Sample.registered Sample.to_api)));
      [reflexivity|].
    intros k l r [H|[H|[]]] Hr; injection H as <- <-.
    + destruct Hr as [<-|[<-|[<-|[]]]]; reflexivity.
    + destruct Hr as [<-|[<-|[]]]; reflexivity.
Defined.

Lemma sample_filed_once :
  filed_once (Intercept.allInterceptors Sample.registered)
    "http://api.test:80" 0%nat.
Proof.
  exists [0; 1; 2]%nat. split; [reflexivity|]. split; [reflexivity|].
  intros k g [H|[H|[]]] Hk; injection H as <- <-.
  - contradiction.
  - intros [E|[E|[]]]; discriminate.
Qed.

(** The persistent interceptor survives three removals, the one with two
    uses left keeps one, and the single-use one is found no more while the
    two filed beside it, the persistent one among them, and the array of
    the other key stay. *)
Lemma remove_lifecycle_witness :
  remove_times Sample.parse 3 2%nat Sample.registered
    = JS.Ok Sample.registered /\
  (exists st',
     Intercept.remove Sample.parse 1%nat Sample.registered = JS.Ok st' /\
     Intercept.counter (Intercept.objects st' 1%nat) = 1 /\
     Intercept.allInterceptors st'
       = Intercept.allInterceptors Sample.registered) /\
  (exists st',
     Intercept.remove Sample.parse 0%nat Sample.registered = JS.Ok st' /\
     (forall options, ~ In 0%nat (found st' options)) /\
     Intercept.get "http://api.test:80" (Intercept.allInterceptors st')
       = Some [1; 2]%nat /\
     Intercept.get "http://files.test:80" (Intercept.allInterceptors st')
       = Some [3; 4]%nat).
Proof.
  split; [|split].
  - apply (proj1 (remove_lifecycle Sample.parse Sample.registered 2%nat)).
    reflexivity.
  - destruct (proj1 (proj2 (remove_lifecycle Sample.parse Sample.registered
                              1%nat)) eq_refl eq_refl)
      as (st' & Hr & Hall & _ & Hobj & _).
    exists st'. split; [exact Hr|]. split; [|exact Hall].
    rewrite Hobj. reflexivity.
  - destruct (proj2 (proj2 (remove_lifecycle Sample.parse Sample.registered
                              0%nat)) eq_refl eq_refl
                "http://api.test:80/items" "http://api.test:80"
                eq_refl eq_refl sample_keys_unique sample_filed_once)
      as (st' & l & Hr & Hl & _ & _ & Hfound & _ & (l0 & Hl0 & Hfilter)
          & Hothers & _ & _).
    exists st'. split; [exact Hr|]. split; [exact Hfound|]. split.
    + rewrite Hl, Hfilter. injection Hl0 as <-. reflexivity.
    + rewrite (Hothers "http://files.test:80"); [reflexivity|discriminate].
Defined.

(** With nothing registered for [zombo.com], the request is refused after
    [disableNetConnect()] and let through after [enableNetConnect()]. *)
Lemma net_connect_policy_without_interceptors_witness :
  Intercept.outcome
    (Intercept.request Sample.parse Sample.no_switch Intercept.http
       (Intercept.disableNetConnect Sample.registered)
       (inr Sample.to_nowhere))
  = JS.Throw
      (JS.mkError "NetConnectNotAllowedError"
         ("Nock: Not allow net connect for "
            ++ JS.dquote ++ "zombo.com:80" ++ JS.dquote)) /\
  (exists st',
     Intercept.enableNetConnect Sample.RegExp Intercept.MNone
       Sample.registered = JS.Ok st' /\
     Intercept.outcome
       (Intercept.request Sample.parse Sample.no_switch Intercept.http st'
          (inr Sample.to_nowhere))
     = JS.Ok Intercept.OldRequest).
Proof.
  destruct (net_connect_policy_without_interceptors Sample.parse
              Sample.RegExp Sample.no_switch Intercept.http
              Sample.registered (inr Sample.to_nowhere) eq_refl eq_refl)
    as ((h & Hh & Hthrow) & Henabled).
  split; [|exact Henabled].
  injection Hh as <-. exact Hthrow.
Defined.

(** C4, as stated, fails when the kill switch is set: with nothing
    registered and after [disableNetConnect()], the request is not refused
    but passed to the original [request]. *)
Lemma disabled_net_connect_forwards_when_off :
  found Sample.nothing (request_options Sample.parse Intercept.http
                          (inr Sample.to_nowhere)) = [] /\
  Intercept.outcome
    (Intercept.request Sample.parse Sample.kill_switch Intercept.http
       (Intercept.disableNetConnect Sample.nothing) (inr Sample.to_nowhere))
  = JS.Ok Intercept.OldRequest /\
  ~ (exists err,
       Intercept.outcome
         (Intercept.request Sample.parse Sample.kill_switch Intercept.http
            (Intercept.disableNetConnect Sample.nothing)
            (inr Sample.to_nowhere))
       = JS.Throw err).
Proof.
  split; [reflexivity|]. split; [reflexivity|].
  intros [err H]. discriminate.
Qed.



(** A request for an unknown path of a [cdn.] host goes to the network,
    since one interceptor of the filtering scope allows it; a request for
    [/items] of [api.test] is overridden. *)
Lemma allowUnmocked_falls_through_witness :
  Intercept.outcome
    (Intercept.request Sample.parse Sample.no_switch Intercept.http
       Sample.registered (inr (Sample.to_host "cdn.test" "/other")))
  = JS.Ok Intercept.OldRequest /\
  Intercept.outcome
    (Intercept.request Sample.parse Sample.no_switch Intercept.http
       Sample.registered (inr Sample.to_api))
  = JS.Ok (Intercept.Overridden (Intercept.WithOverrider [0; 1; 2]%nat)
             [0; 1; 2]%nat).
Proof.
  split.
  - apply (proj1 (allowUnmocked_falls_through Sample.parse Sample.no_switch
                    Intercept.http Sample.registered
                    (inr (Sample.to_host "cdn.test" "/other")) eq_refl
                    ltac:(discriminate)));
      reflexivity.
  - apply (proj1 (proj2 (allowUnmocked_falls_through Sample.parse
                           Sample.no_switch Intercept.http Sample.registered
                           (inr Sample.to_api) eq_refl
                           ltac:(discriminate)))).
    left. reflexivity.
Defined.

(** * Further properties *)

(** ** Host names and scopes *)

Lemma getScope_value (o : Options) :
  Recorder.getScope o =
    (Common.normalizeRequestOptions o,
     JS.Ok ((if _https_ o then "https://" else "http://") ++
            effective_hostname o ++ ":" ++ port_toString (effective_port o))).
Proof.
  assert (Hi : (JS.indexOf ":" (effective_hostname o ++ ":" ++
                                port_toString (effective_port o)) =? -1)
               = false).
  { apply Z.eqb_neq.
    pose proof (indexOf_found ":" (effective_hostname o)
                  (port_toString (effective_port o))) as H.
    simpl in H |- *. lia. }
  unfold Recorder.getScope. rewrite normalize_host, Hi. simpl andb.
  cbv iota. destruct (normalize_rest o) as (Hs & _ & _). rewrite Hs.
  destruct (_https_ o); simpl; rewrite append_empty_r; reflexivity.
Qed.

(** X1.  A non-empty [hostname] decides the normalized host whatever
    [host] says.  Without one, a [host] that begins with a colon (an IPv6
    literal such as [::1]) has an empty text before its first colon, so the
    normalized host is [localhost] with the port, and [hostname] is left
    empty. *)
Theorem hostname_precedence_and_colon_host :
  (forall o h,
     hostname o = Some h -> JS.truthy_string h = true ->
     hostname (Common.normalizeRequestOptions o) = Some h /\
     host (Common.normalizeRequestOptions o)
       = Some (h ++ ":" ++ port_toString (effective_port o))) /\
  (forall o rest,
     JS.truthy_opt (hostname o) = false ->
     host o = Some (":" ++ rest) ->
     hostname (Common.normalizeRequestOptions o) = Some "" /\
     host (Common.normalizeRequestOptions o)
       = Some ("localhost:" ++ port_toString (effective_port o))).
Proof.
  split.
  - intros o h Hh Ht. rewrite normalize_hostname, normalize_host.
    unfold effective_hostname. rewrite Hh.
    destruct (JS.truthy_opt (host o)).
    + rewrite (or_string_some _ _ Ht), (or_string_some _ _ Ht).
      split; reflexivity.
    + rewrite (or_string_some _ _ Ht). split; reflexivity.
  - intros o rest Hn Hh. rewrite normalize_hostname, normalize_host.
    unfold effective_hostname. rewrite Hh. simpl.
    rewrite (or_string_default _ _ Hn). split; reflexivity.
Qed.

Lemma hostname_precedence_and_colon_host_witness :
  host (Common.normalizeRequestOptions Fixture.two_names)
    = Some "b.example:80" /\
  host (Common.normalizeRequestOptions Fixture.ipv6_loopback)
    = Some "localhost:80".
Proof.
  split.
  - apply (proj1 hostname_precedence_and_colon_host Fixture.two_names
             "b.example" eq_refl eq_refl).
  - apply (proj2 hostname_precedence_and_colon_host Fixture.ipv6_loopback
             ":1" eq_refl eq_refl).
Defined.

(** X2.  When the [_https_] flag and the effective scheme agree, the scope
    the recorder computes is the key under which [interceptorsFor] looks
    the same options up. *)
Theorem recorded_scope_is_lookup_key (o : Options) :
  effective_scheme o = (if _https_ o then "https" else "http") ->
  snd (Recorder.getScope o)
    = JS.Ok (Intercept.basePath_of (Intercept.normalizeForRequest o)).
Proof.
  intros H. rewrite getScope_value. simpl snd.
  change (Intercept.basePath_of (Intercept.normalizeForRequest o))
    with (canonical_key o).
  rewrite canonical_key_eq, H. destruct (_https_ o); reflexivity.
Qed.

Lemma recorded_scope_is_lookup_key_witness :
  snd (Recorder.getScope Fixture.https_with_proto)
    = JS.Ok "https://example.com:443".
Proof.
  apply (recorded_scope_is_lookup_key Fixture.https_with_proto eq_refl).
Defined.

(** X3.  The default port of a scope follows [proto], not [_https_]: with
    neither [proto] nor a port, the scope of an https request ends in
    port 80. *)
Theorem https_scope_without_proto_has_port_80 (o : Options) :
  JS.truthy_opt (proto o) = false ->
  port_truthy (port o) = false ->
  _https_ o = true ->
  snd (Recorder.getScope o)
    = JS.Ok ("https://" ++ effective_hostname o ++ ":80").
Proof.
  intros Hp Hq Hs. rewrite getScope_value, Hs. simpl snd.
  unfold effective_port, effective_scheme.
  rewrite (or_string_default _ _ Hp), (or_port_default _ _ Hq).
  reflexivity.
Qed.

Lemma https_scope_without_proto_has_port_80_witness :
  snd (Recorder.getScope Fixture.https_host_only)
    = JS.Ok "https://example.com:80".
Proof.
  apply (https_scope_without_proto_has_port_80 Fixture.https_host_only
           eq_refl eq_refl eq_refl).
Defined.

(** X4.  [getScope] leaves the options normalized, and on options that
    were normalized before, by an earlier [getScope] or by a lookup, it
    gives the same scope again. *)
Theorem getScope_again (o : Options) :
  fst (Recorder.getScope o) = Common.normalizeRequestOptions o /\
  snd (Recorder.getScope (fst (Recorder.getScope o)))
    = snd (Recorder.getScope o) /\
  snd (Recorder.getScope (Intercept.normalizeForRequest o))
    = snd (Recorder.getScope o).
Proof.
  change Intercept.normalizeForRequest with Common.normalizeRequestOptions.
  rewrite !getScope_value. cbn [fst snd].
  destruct (normalize_rest o) as (Hs & _ & _).
  rewrite Hs, effective_hostname_stable, effective_port_stable.
  repeat split; reflexivity.
Qed.

(** ** Registration *)

Lemma put_get_same (key : string) (l : list Intercept.ref)
    (all : Intercept.Registry) :
  Intercept.get key all = Some l -> Intercept.put key l all = all.
Proof.
  induction all as [|[k w] all IH]; simpl; [discriminate|].
  destruct (String.eqb k key) eqn:E.
  - intros H. injection H as ->. reflexivity.
  - intros H. rewrite (IH H). reflexivity.
Qed.

Lemma put_put (key : string) (v w : list Intercept.ref)
    (all : Intercept.Registry) :
  Intercept.put key v (Intercept.put key w all) = Intercept.put key v all.
Proof.
  induction all as [|[k u] all IH]; simpl.
  - rewrite String.eqb_refl. reflexivity.
  - destruct (String.eqb k key) eqn:E; simpl; rewrite E; [reflexivity|].
    rewrite IH. reflexivity.
Qed.

Lemma in_put_either (key : string) (v : list Intercept.ref)
    (all : Intercept.Registry) (k : string) (g : list Intercept.ref) :
  In (k, g) (Intercept.put key v all) ->
  (k = key /\ g = v) \/ In (k, g) all.
Proof.
  induction all as [|[k0 w] all IH]; simpl.
  - intros [H|[]]. injection H as <- <-. left. split; reflexivity.
  - destruct (String.eqb k0 key) eqn:E.
    + apply String.eqb_eq in E. subst k0. intros [H|H].
      * injection H as <- <-. left. split; reflexivity.
      * right. right. exact H.
    + intros [H|H].
      * right. left. exact H.
      * destruct (IH H) as [L|R]; [left; exact L|right; right; exact R].
Qed.

Lemma splice_first_absent (e : nat) (l : list nat) :
  ~ In e l -> Intercept.splice_first e l = l.
Proof.
  induction l as [|x l IH]; simpl; intros H; [reflexivity|].
  destruct (Nat.eqb x e) eqn:E.
  - apply Nat.eqb_eq in E. exfalso. apply H. left. exact E.
  - rewrite IH; [reflexivity|]. intros F. apply H. right. exact F.
Qed.

Lemma splice_first_pushed (e : nat) (l : list nat) :
  ~ In e l -> Intercept.splice_first e (l ++ [e]) = l.
Proof.
  induction l as [|x l IH]; simpl; intros H.
  - rewrite Nat.eqb_refl. reflexivity.
  - destruct (Nat.eqb x e) eqn:E.
    + apply Nat.eqb_eq in E. exfalso. apply H. left. exact E.
    + rewrite IH; [reflexivity|]. intros F. apply H. right. exact F.
Qed.

(** The array [add] pushes on: the one stored under the key, or a new
    empty one. *)
Lemma add_registry (key : string) (e : Intercept.ref)
    (scope : Intercept.Scope) (scopeOptions : Intercept.ScopeOptions)
    (st : Intercept.State) :
  Intercept.allInterceptors (Intercept.add key e scope scopeOptions st)
  = Intercept.put key
      ((match Intercept.get key (Intercept.allInterceptors st) with
        | Some g => g
        | None => []
        end) ++ [e])
      (Intercept.allInterceptors st).
Proof.
  unfold Intercept.add. simpl.
  destruct (Intercept.get key (Intercept.allInterceptors st)) as [g|] eqn:G.
  - rewrite G. reflexivity.
  - rewrite get_put_same, put_put. reflexivity.
Qed.

(** X5.  [add] pushes the interceptor at the end of the array of its key,
    which it creates when the key is new and then is the last key; the
    arrays of the other keys, the policy and the other interceptor objects
    stay as they are, and the object gets its scope, key and scope options
    written into it. *)
Theorem add_pushes_last (key : string) (e : Intercept.ref)
    (scope : Intercept.Scope) (scopeOptions : Intercept.ScopeOptions)
    (st : Intercept.State) :
  let st' := Intercept.add key e scope scopeOptions st in
  let all := Intercept.allInterceptors st in
  Intercept.get key (Intercept.allInterceptors st')
    = Some ((match Intercept.get key all with
             | Some g => g
             | None => []
             end) ++ [e])%list /\
  (forall k, k <> key ->
     Intercept.get k (Intercept.allInterceptors st') = Intercept.get k all) /\
  map fst (Intercept.allInterceptors st')
    = (match Intercept.get key all with
       | Some _ => map fst all
       | None => map fst all ++ [key]
       end)%list /\
  Intercept.allowNetConnect st' = Intercept.allowNetConnect st /\
  Intercept.objects st' e
    = Intercept.set_registration scope key scopeOptions
        (Intercept.objects st e) /\
  (forall r, r <> e -> Intercept.objects st' r = Intercept.objects st r).
Proof.
  cbv zeta. rewrite add_registry.
  split; [apply get_put_same|].
  split; [intros k Hk; apply get_put_other, Hk|].
  split.
  { destruct (Intercept.get key (Intercept.allInterceptors st)) as [g|] eqn:G.
    - apply (put_keys _ _ _ _ G).
    - rewrite (get_none_put _ _ _ G), map_app. reflexivity. }
  split; [reflexivity|].
  split; [apply update_same|].
  intros r Hr. apply update_other, Hr.
Qed.

(** X6.  Without scope filters in play (none registered accepts the base
    path of the request, nor does the one of the new scope), a lookup after
    [add] returns the interceptors found before followed by the new one
    when the key is the base path of the request, and what it found before
    when it is not: first registered, first in the list. *)
Theorem lookup_after_add (key : string) (e : Intercept.ref)
    (scope : Intercept.Scope) (scopeOptions : Intercept.ScopeOptions)
    (st : Intercept.State) (o : Options) :
  let basePath := Intercept.basePath_of (Intercept.normalizeForRequest o) in
  let st' := Intercept.add key e scope scopeOptions st in
  (forall k l r, In (k, l) (Intercept.allInterceptors st) -> In r l ->
     Intercept.accepts st basePath r = false) ->
  match Intercept.scopeFiltering scopeOptions with
  | Some f => f basePath
  | None => false
  end = false ->
  (key = basePath -> found st' o = (found st o ++ [e])%list) /\
  (key <> basePath -> found st' o = found st o).
Proof.
  cbv zeta. intros Hnone Hnew.
  set (basePath := Intercept.basePath_of (Intercept.normalizeForRequest o))
    in *.
  set (st' := Intercept.add key e scope scopeOptions st).
  assert (Hnone' : forall k l r,
             In (k, l) (Intercept.allInterceptors st') -> In r l ->
             Intercept.accepts st' basePath r = false).
  { intros k l r Hin Hr.
    assert (Hacc : forall x, x <> e ->
               Intercept.accepts st' basePath x
               = Intercept.accepts st basePath x).
    { intros x Hx. unfold Intercept.accepts, st', Intercept.add. simpl.
      rewrite (update_other _ _ _ _ Hx). reflexivity. }
    assert (He : Intercept.accepts st' basePath e = false).
    { unfold Intercept.accepts, st', Intercept.add. simpl.
      rewrite update_same. exact Hnew. }
    destruct (Nat.eq_dec r e) as [->|Hne]; [exact He|].
    rewrite (Hacc r Hne).
    unfold st' in Hin. rewrite add_registry in Hin.
    destruct (in_put_either _ _ _ _ _ Hin) as [[_ ->]|R].
    - apply in_app_or in Hr. destruct Hr as [Hr|[<-|[]]]; [|contradiction].
      destruct (Intercept.get key (Intercept.allInterceptors st))
        as [g|] eqn:G; [|destruct Hr].
      apply (Hnone key g r (get_in _ _ _ G) Hr).
    - apply (Hnone k l r R Hr). }
  assert (Hbefore : found st o =
                    match Intercept.get basePath
                            (Intercept.allInterceptors st) with
                    | Some l => l
                    | None => []
                    end).
  { unfold found, Intercept.interceptorsFor. fold basePath.
    rewrite (each_key_none _ _ _ Hnone). reflexivity. }
  assert (Hafter : found st' o =
                   match Intercept.get basePath
                           (Intercept.allInterceptors st') with
                   | Some l => l
                   | None => []
                   end).
  { unfold found, Intercept.interceptorsFor. fold basePath.
    rewrite (each_key_none _ _ _ Hnone'). reflexivity. }
  rewrite Hafter, Hbefore. unfold st'. rewrite add_registry. split.
  - intros ->. rewrite get_put_same. reflexivity.
  - intros Hk. rewrite get_put_other; [reflexivity|].
    intros E. apply Hk. symmetry. exact E.
Qed.

Lemma lookup_after_add_witness :
  found (Intercept.add "http://api.test:80" 1%nat (Intercept.mkScope false)
           (Intercept.mkScopeOptions None)
           (Intercept.add "http://api.test:80" 0%nat
              (Intercept.mkScope false) (Intercept.mkScopeOptions None)
              Sample.nothing))
    Sample.to_api = [0; 1]%nat.
Proof.
  rewrite (proj1 (lookup_after_add "http://api.test:80" 1%nat
                    (Intercept.mkScope false) (Intercept.mkScopeOptions None)
                    (Intercept.add "http://api.test:80" 0%nat
                       (Intercept.mkScope false)
                       (Intercept.mkScopeOptions None) Sample.nothing)
                    Sample.to_api
                    ltac:(intros k l r [H|[]] Hr; injection H as <- <-;
                          destruct Hr as [<-|[]]; reflexivity)
                    eq_refl) eq_refl).
  reflexivity.
Defined.

(** ** Removal, further *)

Lemma State_eta (st : Intercept.State) :
  Intercept.mkState (Intercept.allInterceptors st)
    (Intercept.allowNetConnect st) (Intercept.objects st) = st.
Proof. destruct st. reflexivity. Qed.

(** The three ways [remove] goes for an interceptor of a scope that does
    not persist. *)
Lemma remove_decrements (parse : string -> Url.t) (st : Intercept.State)
    (e : Intercept.ref) :
  Intercept.shouldPersist
    (Intercept.__nock_scope (Intercept.objects st e)) = false ->
  1 < Intercept.counter (Intercept.objects st e) ->
  Intercept.remove parse e st =
  JS.Ok (Intercept.mkState (Intercept.allInterceptors st)
           (Intercept.allowNetConnect st)
           (Intercept.update e
              (Intercept.set_counter
                 (Intercept.counter (Intercept.objects st e) - 1)
                 (Intercept.objects st e))
              (Intercept.objects st))).
Proof.
  intros Hp Hc. unfold Intercept.remove. rewrite Hp.
  assert (G : (Intercept.counter (Intercept.objects st e) >? 1) = true)
    by (apply Z.gtb_lt; exact Hc).
  rewrite G. reflexivity.
Qed.

Lemma remove_splices (parse : string -> Url.t) (st : Intercept.State)
    (e : Intercept.ref) (url : string) (l : list Intercept.ref) :
  Intercept.shouldPersist
    (Intercept.__nock_scope (Intercept.objects st e)) = false ->
  Intercept.counter (Intercept.objects st e) <= 1 ->
  nth_error (JS.split " " (Intercept._key (Intercept.objects st e))) 1
    = Some url ->
  Intercept.get (Url.text (Url.protocol (parse url)) ++ "//" ++
                 Url.text (Url.host (parse url)))
    (Intercept.allInterceptors st) = Some l ->
  Intercept.remove parse e st =
  JS.Ok (Intercept.mkState
           (Intercept.put (Url.text (Url.protocol (parse url)) ++ "//" ++
                           Url.text (Url.host (parse url)))
              (Intercept.splice_first e l) (Intercept.allInterceptors st))
           (Intercept.allowNetConnect st) (Intercept.objects st)).
Proof.
  intros Hp Hc Hurl Hget. unfold Intercept.remove. rewrite Hp.
  assert (G : (Intercept.counter (Intercept.objects st e) >? 1) = false).
  { destruct (Intercept.counter (Intercept.objects st e) >? 1) eqn:E;
      [|reflexivity].
    apply Z.gtb_lt in E. lia. }
  rewrite G, Hurl, Hget. reflexivity.
Qed.

Lemma remove_without_array (parse : string -> Url.t) (st : Intercept.State)
    (e : Intercept.ref) (url : string) :
  Intercept.shouldPersist
    (Intercept.__nock_scope (Intercept.objects st e)) = false ->
  Intercept.counter (Intercept.objects st e) <= 1 ->
  nth_error (JS.split " " (Intercept._key (Intercept.objects st e))) 1
    = Some url ->
  Intercept.get (Url.text (Url.protocol (parse url)) ++ "//" ++
                 Url.text (Url.host (parse url)))
    (Intercept.allInterceptors st) = None ->
  Intercept.remove parse e st = JS.Ok st.
Proof.
  intros Hp Hc Hurl Hget. unfold Intercept.remove. rewrite Hp.
  assert (G : (Intercept.counter (Intercept.objects st e) >? 1) = false).
  { destruct (Intercept.counter (Intercept.objects st e) >? 1) eqn:E;
      [|reflexivity].
    apply Z.gtb_lt in E. lia. }
  rewrite G, Hurl, Hget. reflexivity.
Qed.

(** X7.  [add] of an interceptor that no array holds, followed by its
    [remove] (single use, scope not persistent, registered under the key
    its [_key] leads to), gives back the registry when the key was there
    before; a key that [add] created stays, with an empty array. *)
Theorem add_then_remove (parse : string -> Url.t) (key : string)
    (e : Intercept.ref) (scope : Intercept.Scope)
    (scopeOptions : Intercept.ScopeOptions) (st : Intercept.State)
    (url : string) :
  Intercept.shouldPersist scope = false ->
  Intercept.counter (Intercept.objects st e) <= 1 ->
  nth_error (JS.split " " (Intercept._key (Intercept.objects st e))) 1
    = Some url ->
  key = Url.text (Url.protocol (parse url)) ++ "//" ++
        Url.text (Url.host (parse url)) ->
  (forall k g, In (k, g) (Intercept.allInterceptors st) -> ~ In e g) ->
  exists st',
    Intercept.remove parse e (Intercept.add key e scope scopeOptions st)
      = JS.Ok st' /\
    Intercept.allInterceptors st'
      = match Intercept.get key (Intercept.allInterceptors st) with
        | Some _ => Intercept.allInterceptors st
        | None => (Intercept.allInterceptors st ++ [(key, [])])%list
        end.
Proof.
  intros Hp Hc Hurl Hkey Hfresh.
  assert (Hget : Intercept.get key
                   (Intercept.allInterceptors
                      (Intercept.add key e scope scopeOptions st))
                 = Some ((match Intercept.get key
                                  (Intercept.allInterceptors st) with
                          | Some g => g
                          | None => []
                          end) ++ [e])%list)
    by (rewrite add_registry; apply get_put_same).
  assert (Hobj : Intercept.objects
                   (Intercept.add key e scope scopeOptions st) e
                 = Intercept.set_registration scope key scopeOptions
                     (Intercept.objects st e))
    by apply update_same.
  set (st1 := Intercept.add key e scope scopeOptions st) in *.
  assert (H1 : Intercept.shouldPersist
                 (Intercept.__nock_scope (Intercept.objects st1 e)) = false)
    by (rewrite Hobj; exact Hp).
  assert (H2 : Intercept.counter (Intercept.objects st1 e) <= 1)
    by (rewrite Hobj; exact Hc).
  assert (H3 : nth_error
                 (JS.split " " (Intercept._key (Intercept.objects st1 e))) 1
               = Some url)
    by (rewrite Hobj; exact Hurl).
  assert (Hrem : Intercept.remove parse e st1 =
                 JS.Ok (Intercept.mkState
                          (Intercept.put key
                             (Intercept.splice_first e
                                ((match Intercept.get key
                                          (Intercept.allInterceptors st) with
                                  | Some g => g
                                  | None => []
                                  end) ++ [e]))
                             (Intercept.allInterceptors st1))
                          (Intercept.allowNetConnect st1)
                          (Intercept.objects st1))).
  { rewrite Hkey in Hget |- *.
    apply (remove_splices parse st1 e url _ H1 H2 H3 Hget). }
  rewrite Hrem. eexists. split; [reflexivity|].
  cbn [Intercept.allInterceptors].
  unfold st1. rewrite add_registry, put_put.
  destruct (Intercept.get key (Intercept.allInterceptors st)) as [g|] eqn:G.
  - rewrite splice_first_pushed.
    + apply put_get_same, G.
    + apply (Hfresh key g), get_in, G.
  - rewrite (get_none_put _ _ _ G). simpl. rewrite Nat.eqb_refl.
    reflexivity.
Qed.

Lemma add_then_remove_witness :
  exists st',
    Intercept.remove Sample.parse 3%nat
      (Intercept.add "http://files.test:80" 3%nat (Intercept.mkScope false)
         (Intercept.mkScopeOptions None) Sample.nothing) = JS.Ok st' /\
    Intercept.allInterceptors st' = [("http://files.test:80", [])].
Proof.
  apply (add_then_remove Sample.parse "http://files.test:80" 3%nat
           (Intercept.mkScope false) (Intercept.mkScopeOptions None)
           Sample.nothing "http://files.test:80/items" eq_refl
           ltac:(simpl; lia) eq_refl eq_refl).
  intros k g [].
Defined.

(** X8.  Whatever [remove] does, it never drops a key, never touches the
    net-connect policy, and leaves every other interceptor in its place:
    each array holds the other interceptors in the order it held them, and
    their objects are unchanged. *)
Theorem remove_leaves_the_others (parse : string -> Url.t)
    (st st' : Intercept.State) (e : Intercept.ref) :
  Intercept.remove parse e st = JS.Ok st' ->
  map fst (Intercept.allInterceptors st')
    = map fst (Intercept.allInterceptors st) /\
  Intercept.allowNetConnect st' = Intercept.allowNetConnect st /\
  (forall k,
     option_map (filter (fun r => negb (Nat.eqb r e)))
       (Intercept.get k (Intercept.allInterceptors st'))
     = option_map (filter (fun r => negb (Nat.eqb r e)))
         (Intercept.get k (Intercept.allInterceptors st))) /\
  (forall r, r <> e -> Intercept.objects st' r = Intercept.objects st r).
Proof.
  unfold Intercept.remove.
  destruct (Intercept.shouldPersist _).
  { intros H. injection H as <-. repeat split; reflexivity. }
  destruct (Intercept.counter _ >? 1).
  { intros H. injection H as <-. simpl. repeat split.
    intros r Hr. apply update_other, Hr. }
  destruct (nth_error _ 1) as [url|]; [|discriminate].
  set (hostKey := Url.text (Url.protocol (parse url)) ++ "//" ++
                  Url.text (Url.host (parse url))).
  destruct (Intercept.get hostKey (Intercept.allInterceptors st))
    as [l|] eqn:G.
  - intros H. injection H as <-. simpl.
    split; [apply (put_keys _ _ _ _ G)|].
    split; [reflexivity|].
    split; [|reflexivity].
    intros k. destruct (String.eqb k hostKey) eqn:E.
    + apply String.eqb_eq in E. subst k.
      rewrite get_put_same, G. simpl. rewrite filter_splice_first.
      reflexivity.
    + apply String.eqb_neq in E. rewrite (get_put_other _ _ _ _ E).
      reflexivity.
  - intros H. injection H as <-. repeat split; reflexivity.
Qed.

Lemma remove_leaves_the_others_witness :
  exists st',
    Intercept.remove Sample.parse 0%nat Sample.registered = JS.Ok st' /\
    Intercept.get "http://api.test:80" (Intercept.allInterceptors st')
      = Some [1; 2]%nat /\
    map fst (Intercept.allInterceptors st')
      = ["http://api.test:80"; "http://files.test:80"].
Proof.
  eexists. split; [reflexivity|]. split; [reflexivity|].
  apply (proj1 (remove_leaves_the_others Sample.parse Sample.registered _
                  0%nat eq_refl)).
Defined.

(** X9.  [remove] of a single-use interceptor that the array of its key
    does not hold, or whose key has no array (as after [removeAll]), changes
    nothing at all; so a second [remove] after the one that took it out is
    harmless. *)
Theorem remove_when_not_filed (parse : string -> Url.t)
    (st : Intercept.State) (e : Intercept.ref) (url : string) :
  Intercept.shouldPersist
    (Intercept.__nock_scope (Intercept.objects st e)) = false ->
  Intercept.counter (Intercept.objects st e) <= 1 ->
  nth_error (JS.split " " (Intercept._key (Intercept.objects st e))) 1
    = Some url ->
  (forall l,
     Intercept.get (Url.text (Url.protocol (parse url)) ++ "//" ++
                    Url.text (Url.host (parse url)))
       (Intercept.allInterceptors st) = Some l -> ~ In e l) ->
  Intercept.remove parse e st = JS.Ok st /\
  Intercept.remove parse e (Intercept.removeAll st)
    = JS.Ok (Intercept.removeAll st).
Proof.
  intros Hp Hc Hurl Hnot. split.
  - destruct (Intercept.get (Url.text (Url.protocol (parse url)) ++ "//" ++
                             Url.text (Url.host (parse url)))
                (Intercept.allInterceptors st)) as [l|] eqn:G.
    + rewrite (remove_splices parse st e url l Hp Hc Hurl G).
      rewrite (splice_first_absent _ _ (Hnot l eq_refl)).
      rewrite (put_get_same _ _ _ G), State_eta. reflexivity.
    + apply (remove_without_array parse st e url Hp Hc Hurl G).
  - apply (remove_without_array parse (Intercept.removeAll st) e url Hp Hc
             Hurl eq_refl).
Qed.

Lemma remove_when_not_filed_witness :
  Intercept.remove Sample.parse 0%nat Sample.nothing = JS.Ok Sample.nothing.
Proof.
  apply (proj1 (remove_when_not_filed Sample.parse Sample.nothing 0%nat
                  "http://api.test:80/items" eq_refl ltac:(simpl; lia)
                  eq_refl ltac:(intros l H; discriminate))).
Defined.

(** ** Counting uses *)

Lemma set_counter_self (i : Intercept.Interceptor) :
  Intercept.set_counter (Intercept.counter i) i = i.
Proof. destruct i. reflexivity. Qed.

Lemma remove_times_last (parse : string -> Url.t) (n : nat)
    (e : Intercept.ref) (st : Intercept.State) :
  remove_times parse (S n) e st =
  match remove_times parse n e st with
  | JS.Ok s => Intercept.remove parse e s
  | JS.Throw err => JS.Throw err
  end.
Proof.
  revert st. induction n as [|n IH]; intros st.
  - simpl. destruct (Intercept.remove parse e st); reflexivity.
  - change (remove_times parse (S (S n)) e st)
      with (match Intercept.remove parse e st with
            | JS.Ok s => remove_times parse (S n) e s
            | JS.Throw err => JS.Throw err
            end).
    change (remove_times parse (S n) e st)
      with (match Intercept.remove parse e st with
            | JS.Ok s => remove_times parse n e s
            | JS.Throw err => JS.Throw err
            end).
    destruct (Intercept.remove parse e st) as [s|err]; [apply IH|reflexivity].
Qed.

(** While uses are left, [remove] only counts down. *)
Lemma remove_times_counts_down (parse : string -> Url.t) (n : nat)
    (e : Intercept.ref) (st : Intercept.State) :
  Intercept.shouldPersist
    (Intercept.__nock_scope (Intercept.objects st e)) = false ->
  Intercept.counter (Intercept.objects st e) = Z.of_nat (S n) ->
  exists st',
    remove_times parse n e st = JS.Ok st' /\
    Intercept.allInterceptors st' = Intercept.allInterceptors st /\
    Intercept.allowNetConnect st' = Intercept.allowNetConnect st /\
    Intercept.objects st' e
      = Intercept.set_counter 1 (Intercept.objects st e) /\
    (forall r, r <> e -> Intercept.objects st' r = Intercept.objects st r).
Proof.
  revert st. induction n as [|n IH]; intros st Hp Hc.
  - exists st. simpl. repeat split.
    change 1 with (Z.of_nat 1). rewrite <- Hc. symmetry.
    apply set_counter_self.
  - assert (Hgt : 1 < Intercept.counter (Intercept.objects st e)) by lia.
    simpl remove_times. rewrite (remove_decrements parse st e Hp Hgt).
    set (st1 := Intercept.mkState _ _ _).
    assert (Hobj : Intercept.objects st1 e
                   = Intercept.set_counter
                       (Intercept.counter (Intercept.objects st e) - 1)
                       (Intercept.objects st e))
      by apply update_same.
    destruct (IH st1) as (st' & Hrun & Hall & Hallow & He & Hothers).
    + rewrite Hobj. exact Hp.
    + rewrite Hobj. simpl. lia.
    + exists st'. split; [exact Hrun|]. split; [exact Hall|].
      split; [exact Hallow|]. split.
      * rewrite He, Hobj. reflexivity.
      * intros r Hr. rewrite (Hothers r Hr). apply update_other, Hr.
Qed.

(** Once the interceptor is spliced out of the one array that held it, no
    lookup returns it. *)
Lemma spliced_not_found (all : Intercept.Registry) (hostKey : string)
    (e : Intercept.ref) (l : list Intercept.ref)
    (policy : option (string -> bool))
    (objs : Intercept.ref -> Intercept.Interceptor) (o : Options) :
  unique_keys all ->
  Intercept.get hostKey all = Some l ->
  count_occ Nat.eq_dec l e = 1%nat ->
  (forall k g, In (k, g) all -> k <> hostKey -> ~ In e g) ->
  ~ In e (found (Intercept.mkState
                   (Intercept.put hostKey (Intercept.splice_first e l) all)
                   policy objs) o).
Proof.
  intros Hu Hget Hcount Hother Hin.
  destruct (found_registered
              (Intercept.mkState
                 (Intercept.put hostKey (Intercept.splice_first e l) all)
                 policy objs) o) as [E|[k Hk]].
  - rewrite E in Hin. destruct Hin.
  - destruct (in_put _ _ _ _ _ Hu Hk) as [[_ Hg]|[Hne R]].
    + rewrite Hg in Hin. apply (splice_first_removes _ _ Hcount Hin).
    + apply (Hother k _ R Hne Hin).
Qed.

(** X10.  An interceptor of a scope that does not persist, filed once with
    [n + 1] uses, is still filed after [n] calls of [remove], with one use
    left and the registry as it was; the call after that takes it out, and
    no lookup returns it any more. *)
Theorem remove_counts_uses (parse : string -> Url.t) (n : nat)
    (st : Intercept.State) (e : Intercept.ref) (url hostKey : string) :
  Intercept.shouldPersist
    (Intercept.__nock_scope (Intercept.objects st e)) = false ->
  Intercept.counter (Intercept.objects st e) = Z.of_nat (S n) ->
  nth_error (JS.split " " (Intercept._key (Intercept.objects st e))) 1
    = Some url ->
  hostKey = Url.text (Url.protocol (parse url)) ++ "//" ++
            Url.text (Url.host (parse url)) ->
  unique_keys (Intercept.allInterceptors st) ->
  filed_once (Intercept.allInterceptors st) hostKey e ->
  (exists st',
     remove_times parse n e st = JS.Ok st' /\
     Intercept.allInterceptors st' = Intercept.allInterceptors st /\
     Intercept.counter (Intercept.objects st' e) = 1) /\
  (exists st',
     remove_times parse (S n) e st = JS.Ok st' /\
     forall o, ~ In e (found st' o)).
Proof.
  intros Hp Hc Hurl Hkey Hu (l & Hget & Hcount & Hother).
  destruct (remove_times_counts_down parse n e st Hp Hc)
    as (st1 & Hrun & Hall & Hallow & He & Hothers).
  split.
  - exists st1. split; [exact Hrun|]. split; [exact Hall|].
    rewrite He. reflexivity.
  - rewrite remove_times_last, Hrun.
    assert (H1 : Intercept.shouldPersist
                   (Intercept.__nock_scope (Intercept.objects st1 e))
                 = false) by (rewrite He; exact Hp).
    assert (H2 : Intercept.counter (Intercept.objects st1 e) <= 1)
      by (rewrite He; simpl; lia).
    assert (H3 : nth_error
                   (JS.split " "
                      (Intercept._key (Intercept.objects st1 e))) 1
                 = Some url) by (rewrite He; exact Hurl).
    rewrite Hkey, <- Hall in Hget.
    rewrite (remove_splices parse st1 e url l H1 H2 H3 Hget).
    eexists. split; [reflexivity|].
    intros o. rewrite <- Hkey. rewrite <- Hkey in Hget.
    apply spliced_not_found.
    + rewrite Hall. exact Hu.
    + exact Hget.
    + exact Hcount.
    + rewrite Hall. exact Hother.
Qed.

Lemma remove_counts_uses_witness :
  (exists st',
     remove_times Sample.parse 1 1%nat Sample.registered = JS.Ok st' /\
     Intercept.allInterceptors st'
       = Intercept.allInterceptors Sample.registered /\
     Intercept.counter (Intercept.objects st' 1%nat) = 1) /\
  (exists st',
     remove_times Sample.parse 2 1%nat Sample.registered = JS.Ok st' /\
     forall o, ~ In 1%nat (found st' o)).
Proof.
  apply (remove_counts_uses Sample.parse 1 Sample.registered 1%nat
           "http://api.test:80/items" "http://api.test:80"
           eq_refl eq_refl eq_refl eq_refl sample_keys_unique).
  exists [0; 1; 2]%nat. split; [reflexivity|]. split; [reflexivity|].
  intros k g [H|[H|[]]] Hk; injection H as <- <-.
  - contradiction.
  - intros [E|[E|[]]]; discriminate.
Defined.

(** ** What a lookup and a request leave behind *)

(** X11.  A lookup changes nothing but one [__nock_filteredScope] mark: the
    registry and the policy are as before, every interceptor object is as
    before or is the accepted one with its mark set to its scope key, a
    mark once set is never cleared by a later lookup, and when no filter
    accepts the base path the state is untouched. *)
Theorem lookup_only_marks (st : Intercept.State) (o : Options) :
  let st' := fst (fst (Intercept.interceptorsFor st o)) in
  let basePath := Intercept.basePath_of (Intercept.normalizeForRequest o) in
  Intercept.allInterceptors st' = Intercept.allInterceptors st /\
  Intercept.allowNetConnect st' = Intercept.allowNetConnect st /\
  (forall r,
     Intercept.objects st' r = Intercept.objects st r \/
     (Intercept.accepts st basePath r = true /\
      Intercept.objects st' r
        = Intercept.set_filteredScope
            (Some (Intercept.__nock_scopeKey (Intercept.objects st r)))
            (Intercept.objects st r))) /\
  (forall r k,
     Intercept.__nock_filteredScope (Intercept.objects st r) = Some k ->
     exists k',
       Intercept.__nock_filteredScope (Intercept.objects st' r) = Some k') /\
  ((forall k l r, In (k, l) (Intercept.allInterceptors st) -> In r l ->
      Intercept.accepts st basePath r = false) ->
   st' = st).
Proof.
  cbv zeta.
  assert (Hobj : forall r,
             Intercept.objects (fst (fst (Intercept.interceptorsFor st o))) r
               = Intercept.objects st r \/
             (Intercept.accepts st
                (Intercept.basePath_of (Intercept.normalizeForRequest o)) r
                = true /\
              Intercept.objects (fst (fst (Intercept.interceptorsFor st o))) r
                = Intercept.set_filteredScope
                    (Some (Intercept.__nock_scopeKey (Intercept.objects st r)))
                    (Intercept.objects st r))).
  { intros r. unfold Intercept.interceptorsFor.
    destruct (Intercept.each_key st _ (Intercept.allInterceptors st))
      as [[s g]|] eqn:E; simpl; [|left; reflexivity].
    destruct (Nat.eq_dec r s) as [->|Hne].
    - right. split; [|apply update_same].
      clear -E. induction (Intercept.allInterceptors st) as [|[k w] all IH];
        simpl in E; [discriminate|].
      destruct (find _ w) as [x|] eqn:F.
      + injection E as <- _. apply (find_some _ _ F).
      + apply IH, E.
    - left. apply update_other, Hne. }
  split; [|split; [|split; [exact Hobj|split]]].
  - unfold Intercept.interceptorsFor.
    destruct (Intercept.each_key st _ _) as [[s g]|]; reflexivity.
  - unfold Intercept.interceptorsFor.
    destruct (Intercept.each_key st _ _) as [[s g]|]; reflexivity.
  - intros r k Hk. destruct (Hobj r) as [->|[_ ->]].
    + exists k. exact Hk.
    + eexists. reflexivity.
  - intros Hnone. unfold Intercept.interceptorsFor.
    rewrite (each_key_none _ _ _ Hnone). reflexivity.
Qed.

Lemma lookup_only_marks_witness :
  fst (fst (Intercept.interceptorsFor Sample.registered Sample.to_api))
    = Sample.registered.
Proof.
  apply (proj2 (proj2 (proj2 (proj2
           (lookup_only_marks Sample.registered Sample.to_api))))).
  intros k l r [H|[H|[]]] Hr; injection H as <- <-.
  - destruct Hr as [<-|[<-|[<-|[]]]]; reflexivity.
  - destruct Hr as [<-|[<-|[]]]; reflexivity.
Defined.

(** The decision of the net-connect policy on a host. *)
Lemma unmatched_request (parse : string -> Url.t) (env : Intercept.Env)
    (proto : Intercept.Proto) (st : Intercept.State) (arg : string + Options) :
  Intercept.isOff env = false ->
  found st (request_options parse proto arg) = [] ->
  Intercept.outcome (Intercept.request parse env proto st arg) =
    (let h := effective_hostname (request_options parse proto arg) ++ ":" ++
              port_toString (effective_port
                               (request_options parse proto arg)) in
     match Intercept.allowNetConnect st with
     | Some test =>
         if test h then JS.Ok Intercept.OldRequest
         else JS.Throw (Intercept.NetConnectNotAllowedError h)
     | None => JS.Throw (Intercept.NetConnectNotAllowedError h)
     end) /\
  Intercept.match_calls (Intercept.request parse env proto st arg) = [].
Proof.
  intros Hoff Hnone.
  destruct (request_cases parse env proto st arg)
    as (st1 & _ & Hallow & _ & ->).
  rewrite Hnone, andb_false_r, Hoff.
  unfold Intercept.isEnabledForNetConnect. rewrite Hallow.
  change Intercept.normalizeForRequest with Common.normalizeRequestOptions.
  destruct (normalize_twice_endpoint (request_options parse proto arg))
    as (_ & _ & Hh).
  rewrite Hh, normalize_host. cbv zeta. cbn [JS.text].
  destruct (Intercept.allowNetConnect st) as [test|];
    [destruct (test _)|]; split; reflexivity.
Qed.

(** X12.  With interception on and no interceptor found, the policy
    decides alone, on the normalized host with its port: the request goes
    to the original [request] when the pattern set by [enableNetConnect]
    tests true on [hostname:port], and throws [NetConnectNotAllowedError]
    for that host otherwise; no interceptor is asked to match.  A string
    given to [enableNetConnect] is compiled by [RegExp], whose exception
    comes out of [enableNetConnect].  After [removeAll] every request is
    decided this way, by the policy that was set before. *)
Theorem unmatched_request_follows_pattern
    (parse : string -> Url.t) (RegExp : string -> JS.result (string -> bool))
    (env : Intercept.Env) (proto : Intercept.Proto) (st : Intercept.State)
    (arg : string + Options) :
  let o := request_options parse proto arg in
  let h := effective_hostname o ++ ":" ++ port_toString (effective_port o) in
  let decision (policy : option (string -> bool)) :=
    match policy with
    | Some test =>
        if test h then JS.Ok Intercept.OldRequest
        else JS.Throw (Intercept.NetConnectNotAllowedError h)
    | None => JS.Throw (Intercept.NetConnectNotAllowedError h)
    end in
  Intercept.isOff env = false ->
  (found st o = [] ->
   Intercept.outcome (Intercept.request parse env proto st arg)
     = decision (Intercept.allowNetConnect st) /\
   Intercept.match_calls (Intercept.request parse env proto st arg) = [] /\
   (forall source test, RegExp source = JS.Ok test ->
      exists st',
        Intercept.enableNetConnect RegExp (Intercept.MString source) st
          = JS.Ok st' /\
        Intercept.outcome (Intercept.request parse env proto st' arg)
          = decision (Some test))) /\
  (forall source err, RegExp source = JS.Throw err ->
     Intercept.enableNetConnect RegExp (Intercept.MString source) st
       = JS.Throw err) /\
  Intercept.outcome
    (Intercept.request parse env proto (Intercept.removeAll st) arg)
    = decision (Intercept.allowNetConnect st).
Proof.
  cbv zeta. intros Hoff. split; [|split].
  - intros Hnone.
    destruct (unmatched_request parse env proto st arg Hoff Hnone)
      as (Hout & Hcalls).
    split; [exact Hout|]. split; [exact Hcalls|].
    intros source test Hre. unfold Intercept.enableNetConnect. rewrite Hre.
    eexists. split; [reflexivity|].
    apply (unmatched_request parse env proto
             (Intercept.mkState (Intercept.allInterceptors st) (Some test)
                (Intercept.objects st)) arg Hoff).
    rewrite <- Hnone.
    apply (found_same st
             (Intercept.mkState (Intercept.allInterceptors st) (Some test)
                (Intercept.objects st)) _ _ eq_refl (same_but_marks_refl _)
             eq_refl).
  - intros source err Hre. unfold Intercept.enableNetConnect. rewrite Hre.
    reflexivity.
  - apply (unmatched_request parse env proto (Intercept.removeAll st) arg
             Hoff eq_refl).
Qed.

Lemma unmatched_request_follows_pattern_witness :
  (exists st',
     Intercept.enableNetConnect Sample.RegExp (Intercept.MString "zombo")
       (Intercept.disableNetConnect Sample.registered) = JS.Ok st' /\
     Intercept.outcome
       (Intercept.request Sample.parse Sample.no_switch Intercept.http st'
          (inr Sample.to_nowhere)) = JS.Ok Intercept.OldRequest) /\
  (exists st',
     Intercept.enableNetConnect Sample.RegExp (Intercept.MString "google")
       Sample.registered = JS.Ok st' /\
     Intercept.outcome
       (Intercept.request Sample.parse Sample.no_switch Intercept.http st'
          (inr Sample.to_nowhere))
     = JS.Throw (Intercept.NetConnectNotAllowedError "zombo.com:80")).
Proof.
  split.
  - apply (proj2 (proj2 (proj1 (unmatched_request_follows_pattern
             Sample.parse Sample.RegExp Sample.no_switch Intercept.http
             (Intercept.disableNetConnect Sample.registered)
             (inr Sample.to_nowhere) eq_refl) eq_refl)) "zombo" _ eq_refl).
  - apply (proj2 (proj2 (proj1 (unmatched_request_follows_pattern
             Sample.parse Sample.RegExp Sample.no_switch Intercept.http
             Sample.registered (inr Sample.to_nowhere) eq_refl) eq_refl))
             "google" _ eq_refl).
Defined.

(** X13.  With interception on, a request for which interceptors are found
    is answered the same way whatever the net-connect policy is: it is
    overridden also when net connect is enabled, and the pass-through
    granted by [allowUnmocked] goes to the original [request] also after
    [disableNetConnect()]. *)
Theorem found_request_ignores_policy
    (parse : string -> Url.t) (env : Intercept.Env) (proto : Intercept.Proto)
    (st : Intercept.State) (policy : option (string -> bool))
    (arg : string + Options) :
  let st2 :=
    Intercept.mkState (Intercept.allInterceptors st) policy
      (Intercept.objects st) in
  Intercept.isOn env = true ->
  found st (request_options parse proto arg) <> [] ->
  Intercept.outcome (Intercept.request parse env proto st2 arg)
    = Intercept.outcome (Intercept.request parse env proto st arg) /\
  Intercept.match_calls (Intercept.request parse env proto st2 arg)
    = Intercept.match_calls (Intercept.request parse env proto st arg) /\
  Intercept.outcome
    (Intercept.request parse env proto (Intercept.disableNetConnect st) arg)
    = Intercept.outcome (Intercept.request parse env proto st arg).
Proof.
  cbv zeta. intros Hon Hne.
  assert (Hgen : forall p,
            Intercept.outcome
              (Intercept.request parse env proto
                 (Intercept.mkState (Intercept.allInterceptors st) p
                    (Intercept.objects st)) arg)
              = Intercept.outcome (Intercept.request parse env proto st arg)
            /\
            Intercept.match_calls
              (Intercept.request parse env proto
                 (Intercept.mkState (Intercept.allInterceptors st) p
                    (Intercept.objects st)) arg)
              = Intercept.match_calls
                  (Intercept.request parse env proto st arg)).
  { intros p.
    set (st2 := Intercept.mkState (Intercept.allInterceptors st) p
                  (Intercept.objects st)).
    assert (Hf : found st2 (request_options parse proto arg)
                 = found st (request_options parse proto arg))
      by apply (found_same st st2 _ _ eq_refl (same_but_marks_refl _)
                  eq_refl).
    destruct (request_cases parse env proto st arg)
      as (st1 & Hall & _ & Hobj & ->).
    destruct (request_cases parse env proto st2 arg)
      as (st3 & Hall3 & _ & Hobj3 & ->).
    rewrite Hf.
    change (some_match st2) with (some_match st).
    change (some_allowUnmocked st2) with (some_allowUnmocked st).
    destruct (OverridenClientRequest_again st st1 _ Hall Hobj Hne)
      as (st4 & ->).
    pose proof Hne as Hne2. rewrite <- Hf in Hne2.
    destruct (OverridenClientRequest_again st2 st3 _ Hall3 Hobj3 Hne2)
      as (st5 & ->).
    rewrite Hf, Hon, length_test.
    destruct (found st (request_options parse proto arg)) as [|c cs];
      [contradiction|].
    cbn [negb andb].
    destruct (negb _ && _); split; reflexivity. }
  destruct (Hgen policy) as (H1 & H2).
  split; [exact H1|]. split; [exact H2|].
  apply (Hgen None).
Qed.

Lemma found_request_ignores_policy_witness :
  Intercept.outcome
    (Intercept.request Sample.parse Sample.no_switch Intercept.http
       (Intercept.disableNetConnect Sample.registered)
       (inr (Sample.to_host "cdn.test" "/other")))
  = JS.Ok Intercept.OldRequest.
Proof.
  rewrite (proj2 (proj2 (found_request_ignores_policy Sample.parse
                           Sample.no_switch Intercept.http Sample.registered
                           None (inr (Sample.to_host "cdn.test" "/other"))
                           eq_refl ltac:(discriminate)))).
  reflexivity.
Defined.

(** ** Recorded bodies *)

Lemma hex_byte_reads_back (b : Byte.byte) :
  Hex.byte_of_digits (Recorder.hex_digit (Byte.to_N b / 16))
    (Recorder.hex_digit (Byte.to_N b mod 16)) = Some b.
Proof. destruct b; vm_compute; reflexivity. Qed.

Lemma toString_hex_reads_back (buffer : list Byte.byte) :
  Hex.decode (Recorder.toString_hex buffer) = Some buffer.
Proof.
  induction buffer as [|b buffer IH]; [reflexivity|].
  cbn [Recorder.toString_hex Hex.decode].
  rewrite hex_byte_reads_back, IH. reflexivity.
Qed.

Lemma toString_hex_length (buffer : list Byte.byte) :
  String.length (Recorder.toString_hex buffer) = (2 * length buffer)%nat.
Proof.
  induction buffer as [|b buffer IH]; [reflexivity|].
  cbn [Recorder.toString_hex String.length length]. rewrite IH. lia.
Qed.

(** X14.  The string recorded for a binary payload has two hex digits per
    byte and reads back to the merged buffer, so two different binary
    payloads are never recorded as the same string. *)
Theorem binary_body_reads_back
    (Json : Type)
    (mergeChunks : list (list Byte.byte) -> list Byte.byte)
    (isBinaryBuffer : list Byte.byte -> bool)
    (toString_utf8 : list Byte.byte -> string)
    (JSON_parse : string -> JS.result Json) :
  (forall chunks,
     isBinaryBuffer (mergeChunks chunks) = true ->
     exists s,
       Recorder.getBodyFromChunks Json mergeChunks isBinaryBuffer
         toString_utf8 JSON_parse chunks = Recorder.Str s /\
       Hex.decode s = Some (mergeChunks chunks) /\
       String.length s = (2 * length (mergeChunks chunks))%nat) /\
  (forall a b,
     isBinaryBuffer (mergeChunks a) = true ->
     isBinaryBuffer (mergeChunks b) = true ->
     Recorder.getBodyFromChunks Json mergeChunks isBinaryBuffer
       toString_utf8 JSON_parse a
     = Recorder.getBodyFromChunks Json mergeChunks isBinaryBuffer
         toString_utf8 JSON_parse b ->
     mergeChunks a = mergeChunks b).
Proof.
  split.
  - intros chunks Hb. unfold Recorder.getBodyFromChunks. rewrite Hb.
    eexists. split; [reflexivity|].
    split; [apply toString_hex_reads_back|apply toString_hex_length].
  - intros a b Ha Hb. unfold Recorder.getBodyFromChunks. rewrite Ha, Hb.
    intros H. injection H as H.
    apply (f_equal Hex.decode) in H.
    rewrite !toString_hex_reads_back in H. injection H as H. exact H.
Qed.

Lemma binary_body_reads_back_witness :
  exists s,
    Recorder.getBodyFromChunks string Sample.mergeChunks
      Sample.isBinaryBuffer Sample.toString_utf8 Sample.JSON_parse
      Sample.binary_chunks = Recorder.Str s /\
    Hex.decode s = Some [Byte.xde; Byte.xad; Byte.xbe; Byte.xef] /\
    String.length s = 8%nat.
Proof.
  apply (proj1 (binary_body_reads_back string Sample.mergeChunks
                  Sample.isBinaryBuffer Sample.toString_utf8
                  Sample.JSON_parse) Sample.binary_chunks eq_refl).
Defined.

(** X15.  Through the [write] the recorder installs, every argument but
    [undefined] reaches the original [write], in order, and the chunks
    kept for the recorded body are the truthy ones among them, in order:
    an empty string or [null] is passed on but not recorded, an empty
    buffer is recorded. *)
Theorem write_records_truthy_chunks (calls : list Recording.Data)
    (req : Recording.Request) :
  let req' := fold_left (fun r data => Recording.write data r) calls req in
  Recording.oldWrite req'
    = (Recording.oldWrite req ++ filter Recording.defined calls)%list /\
  Recording.bodyChunks req'
    = (Recording.bodyChunks req ++ filter Recording.truthy calls)%list /\
  Recording.bodyChunks req'
    = (Recording.bodyChunks req
         ++ filter Recording.truthy (filter Recording.defined calls))%list.
Proof.
  cbv zeta.
  assert (Hf : filter Recording.truthy (filter Recording.defined calls)
               = filter Recording.truthy calls).
  { induction calls as [|d calls IH]; [reflexivity|].
    destruct d; simpl; rewrite IH; reflexivity. }
  rewrite Hf. clear Hf. revert req.
  induction calls as [|d calls IH]; intros req; simpl.
  - rewrite !app_nil_r. repeat split; reflexivity.
  - destruct (IH (Recording.write d req)) as (H1 & H2 & _).
    rewrite H1, H2. unfold Recording.write.
    destruct d as [| |s|b]; simpl;
      try destruct (JS.truthy_string s); simpl; rewrite <- ?app_assoc;
      repeat split; reflexivity.
Qed.

(** X16.  The structured record of an exchange is always produced:
    [getScope] does not throw.  Its scope is the scheme prefix with the
    normalized host, its method is the one of the options or [GET], its
    path is the one of the options as given, both bodies are classified
    by [getBodyFromChunks], and the options are left normalized. *)
Theorem generateRequestAndResponseObject_value
    (Json Headers : Type)
    (mergeChunks : list (list Byte.byte) -> list Byte.byte)
    (isBinaryBuffer : list Byte.byte -> bool)
    (toString_utf8 : list Byte.byte -> string)
    (JSON_parse : string -> JS.result Json)
    (req_headers : Headers) (bodyChunks : list (list Byte.byte))
    (options : Options) (res_statusCode : Z) (res_headers : Headers)
    (dataChunks : list (list Byte.byte)) :
  Recording.generateRequestAndResponseObject Json Headers mergeChunks
    isBinaryBuffer toString_utf8 JSON_parse req_headers bodyChunks options
    res_statusCode res_headers dataChunks
  = (Common.normalizeRequestOptions options,
     JS.Ok (Recording.Recorded.mk
              ((if _https_ options then "https://" else "http://") ++
               effective_hostname options ++ ":" ++
               port_toString (effective_port options))
              (or_string (method options) "GET")
              (path options)
              (Recorder.getBodyFromChunks Json mergeChunks isBinaryBuffer
                 toString_utf8 JSON_parse bodyChunks)
              res_statusCode
              (Recorder.getBodyFromChunks Json mergeChunks isBinaryBuffer
                 toString_utf8 JSON_parse dataChunks)
              res_headers req_headers)).
Proof.
  unfold Recording.generateRequestAndResponseObject, Recorder.getMethod.
  rewrite getScope_value.
  destruct (normalize_rest options) as (_ & Hm & Hp).
  rewrite Hm, Hp. reflexivity.
Qed.

(** ** A recording session *)

(** X17.  Over any sequence of [record], [restore], [clear] and ended
    responses: the outputs are those of the responses that ended since the
    last [clear], in order, whether or not they were printed and whatever
    [record] and [restore] did in between; the lines printed are those of
    the responses whose recording did not set [dont_print]; and a recording
    is in progress exactly when the last of the [record] and [restore]
    calls was a [record], also when that [record] threw. *)
Theorem session_outputs_and_flag
    (Modules Output : Type)
    (restoreOverriddenRequests restoreOverriddenClientRequest
       : Modules -> Modules)
    (overrideRequests : Recorder.Callback -> Modules -> Modules)
    (text : Output -> string)
    (events : list (Recording.Event Output))
    (w : Recording.World Modules Output) :
  let w' :=
    Recording.run Modules Output restoreOverriddenRequests
      restoreOverriddenClientRequest overrideRequests text events w in
  Recorder.outputs (Recording.recorder w')
    = Recording.outputs_of Output events
        (Recorder.outputs (Recording.recorder w)) /\
  Recording.console w'
    = (Recording.console w ++ Recording.printed_of Output text events)%list /\
  Recorder.recordingInProgress (Recording.recorder w')
    = Recording.in_progress_of Output events
        (Recorder.recordingInProgress (Recording.recorder w)).
Proof.
  cbv zeta. unfold Recording.run. revert w.
  induction events as [|ev events IH]; intros w.
  - simpl. rewrite app_nil_r. repeat split; reflexivity.
  - cbn [fold_left].
    destruct (IH (Recording.step Modules Output restoreOverriddenRequests
                    restoreOverriddenClientRequest overrideRequests text
                    w ev)) as (H1 & H2 & H3).
    rewrite H1, H2, H3. clear IH H1 H2 H3.
    destruct ev as [opts| | |cb object script]; simpl.
    + unfold Recorder.record.
      destruct (Recorder.recordingInProgress (Recording.recorder w)) eqn:E;
        simpl; rewrite ?E; repeat split; reflexivity.
    + repeat split; reflexivity.
    + repeat split; reflexivity.
    + unfold Recording.out_of.
      destruct (Recorder.dont_print cb); simpl; rewrite <- ?app_assoc;
        repeat split; reflexivity.
Qed.

(** ** What a request leaves *)

Lemma same_but_marks_trans (h1 h2 h3 : Intercept.ref -> Intercept.Interceptor) :
  same_but_marks h1 h2 -> same_but_marks h2 h3 -> same_but_marks h1 h3.
Proof.
  intros H12 H23 r. destruct (H12 r) as [v E12]. destruct (H23 r) as [w E23].
  exists w. rewrite E23, E12. reflexivity.
Qed.

Lemma OverridenClientRequest_shape (st : Intercept.State) (o : Options) :
  exists st' req,
    Intercept.OverridenClientRequest st o
      = (st', Intercept.normalizeForRequest o, req) /\
    Intercept.allInterceptors st' = Intercept.allInterceptors st /\
    Intercept.allowNetConnect st' = Intercept.allowNetConnect st /\
    same_but_marks (Intercept.objects st) (Intercept.objects st').
Proof.
  unfold Intercept.OverridenClientRequest.
  destruct (interceptorsFor_shape st o) as (st' & -> & Hall & Hallow & Hobj).
  destruct (0 <? _); exists st'; eexists; (split; [reflexivity|]);
    repeat split; assumption.
Qed.

Lemma normalized_once_or_twice (o x : Options) :
  x = Common.normalizeRequestOptions o \/
  x = Common.normalizeRequestOptions (Common.normalizeRequestOptions o) ->
  proto x = Some (effective_scheme o) /\
  port x = Some (effective_port o) /\
  host x = Some (effective_hostname o ++ ":" ++
                 port_toString (effective_port o)).
Proof.
  destruct (normalize_twice_endpoint o) as (Hp & Hq & Hh).
  intros [->| ->]; rewrite ?Hp, ?Hq, ?Hh;
    rewrite normalize_proto, normalize_port, normalize_host;
    repeat split; reflexivity.
Qed.

(** X18.  Whatever a call of the overriding [request] returns or throws,
    it leaves the registry and the net-connect policy as they were and
    changes no interceptor object beyond its [__nock_filteredScope] mark;
    and it leaves the caller's options with [proto] set to the name of the
    module and [host] rewritten to [hostname:port], also when the request
    is handed to the original [request]. *)
Theorem request_leaves_registry_and_normalized_options
    (parse : string -> Url.t) (env : Intercept.Env)
    (module_ : Intercept.Proto) (st : Intercept.State)
    (arg : string + Options) :
  let call := Intercept.request parse env module_ st arg in
  let o := request_options parse module_ arg in
  Intercept.allInterceptors (Intercept.state_after call)
    = Intercept.allInterceptors st /\
  Intercept.allowNetConnect (Intercept.state_after call)
    = Intercept.allowNetConnect st /\
  same_but_marks (Intercept.objects st)
    (Intercept.objects (Intercept.state_after call)) /\
  proto (Intercept.options_after call)
    = Some (Intercept.proto_name module_) /\
  port (Intercept.options_after call) = Some (effective_port o) /\
  host (Intercept.options_after call)
    = Some (effective_hostname o ++ ":" ++ port_toString (effective_port o)).
Proof.
  cbv zeta.
  assert (Hs : effective_scheme (request_options parse module_ arg)
               = Intercept.proto_name module_)
    by (destruct module_; reflexivity).
  destruct (request_cases parse env module_ st arg)
    as (st1 & Hall & Hallow & Hobj & ->).
  change Intercept.normalizeForRequest with Common.normalizeRequestOptions.
  pose proof (normalized_once_or_twice (request_options parse module_ arg))
    as Hn. rewrite Hs in Hn.
  destruct (Intercept.isOn env && _).
  - destruct (negb _ && _).
    + cbn [Intercept.state_after Intercept.options_after].
      split; [exact Hall|]. split; [exact Hallow|]. split; [exact Hobj|].
      apply Hn. left. reflexivity.
    + destruct (OverridenClientRequest_shape st1
                  (Common.normalizeRequestOptions
                     (request_options parse module_ arg)))
        as (st2 & req & -> & Hall2 & Hallow2 & Hobj2).
      cbn [Intercept.state_after Intercept.options_after].
      split; [rewrite Hall2; exact Hall|].
      split; [rewrite Hallow2; exact Hallow|].
      split; [apply (same_but_marks_trans _ _ _ Hobj Hobj2)|].
      apply Hn. right. reflexivity.
  - destruct (Intercept.isOff env).
    + cbn [Intercept.state_after Intercept.options_after].
      split; [exact Hall|]. split; [exact Hallow|]. split; [exact Hobj|].
      apply Hn. left. reflexivity.
    + unfold Intercept.isEnabledForNetConnect.
      change Intercept.normalizeForRequest
        with Common.normalizeRequestOptions.
      destruct (match Intercept.allowNetConnect st1 with
                | Some test => _
                | None => false
                end);
        cbn [Intercept.state_after Intercept.options_after];
        (split; [exact Hall|]); (split; [exact Hallow|]);
        (split; [exact Hobj|]); apply Hn; right; reflexivity.
Qed.
